(** * vue-i18n-loader: the transform of [src/index.ts], embedded and verified

    The loader turns the body of an [<i18n>] custom block into the source
    text of a module that installs the messages on a component.  This file
    embeds [src/index.ts] function by function and proves the properties
    its specification states about it.

    JavaScript strings are sequences of UTF-16 code units; they are
    modelled as lists of code units ([N]), so that U+2028 and U+2029 are
    single elements, as they are for the regular expressions of
    [cleanMessagesString]. *)

From Stdlib Require Import NArith ZArith List String Ascii DecimalString Lia.
From stdpp Require Import base option list gmap.

Local Open Scope N_scope.
Local Open Scope list_scope.

(** ** Strings *)

Module JsString.

Abbreviation jsstring := (list N).

(** The code units of an ASCII source literal. *)
Definition lit (s : string) : jsstring :=
  List.map N_of_ascii (list_ascii_of_string s).
Arguments lit : simpl never.

Definition LF : N := 10.
Definition CR : N := 13.
Definition DQUOTE : N := 34.
Definition QUOTE : N := 39.          (* U+0027 *)
Definition QUESTION : N := 63.
Definition SLASH : N := 47.
Definition BACKSLASH : N := 92.
Definition LS : N := 8232.           (* U+2028 LINE SEPARATOR *)
Definition PS : N := 8233.           (* U+2029 PARAGRAPH SEPARATOR *)

(** [s.replace(/c/g, r)] for a pattern that is one code unit and a
    replacement text without [$]: every occurrence, left to right. *)
Definition replaceAll (c : N) (r s : jsstring) : jsstring :=
  flat_map (fun x => if x =? c then r else [x]) s.

Fixpoint eqb (a b : jsstring) : bool :=
  match a, b with
  | [], [] => true
  | x :: a', y :: b' => (x =? y) && eqb a' b'
  | _, _ => false
  end.

Definition nonEmpty (s : jsstring) : bool :=
  match s with [] => false | _ => true end.

End JsString.
Import JsString.

(** The replacement texts of [cleanMessagesString]: a backslash followed
    by [u] and four digits, and two backslashes. *)
Definition escLS : jsstring := BACKSLASH :: lit "u2028".
Definition escPS : jsstring := BACKSLASH :: lit "u2029".
Definition escBackslash : jsstring := [BACKSLASH; BACKSLASH].
Definition escQuote : jsstring := BACKSLASH :: lit "u0027".

(** ** String Sanitizer ([src/index.ts], lines 83-93) *)

Definition cleanMessagesString (messagesString : jsstring) : jsstring :=
  replaceAll QUOTE escQuote
    (replaceAll BACKSLASH escBackslash
       (replaceAll PS (escPS)
          (replaceAll LS (escLS) messagesString))).

(** The three stages of the chain, named for the statements below. *)
Definition escapeSeparators (s : jsstring) : jsstring :=
  replaceAll PS (escPS) (replaceAll LS (escLS) s).
Definition escapeBackslashes (s : jsstring) : jsstring :=
  replaceAll BACKSLASH escBackslash s.
Definition escapeQuotes (s : jsstring) : jsstring :=
  replaceAll QUOTE escQuote s.

(** What the whole chain does to one code unit of the input. *)
Definition cleanUnit (c : N) : jsstring :=
  if c =? LS then BACKSLASH :: escLS
  else if c =? PS then BACKSLASH :: escPS
  else if c =? BACKSLASH then escBackslash
  else if c =? QUOTE then escQuote
  else [c].

(** What the first two replacements do to one code unit. *)
Definition separatorUnit (c : N) : jsstring :=
  if c =? LS then escLS
  else if c =? PS then escPS
  else [c].

(** The substitution as the specification words it: each of the four code
    points is replaced by its own escape sequence, once. *)
Definition escapeOnceUnit (c : N) : jsstring :=
  if c =? LS then escLS
  else if c =? PS then escPS
  else if c =? BACKSLASH then escBackslash
  else if c =? QUOTE then escQuote
  else [c].
Definition escapeOnce (s : jsstring) : jsstring := flat_map escapeOnceUnit s.

(** ** Reading a single-quoted literal back

    [stringifyMessages] puts the sanitized text between single quotes in
    the generated module.  [evalLiteral] is the value ECMAScript gives to
    the body of such a literal (what the specification calls unescaping):
    [None] when the body is not a well-formed literal body.  Raw line
    terminators are refused, U+2028 and U+2029 among them as before
    ES2019; escapes the sanitizer never emits (hexadecimal, octal,
    braces) are refused as well. *)

Definition hexDigit (c : N) : option N :=
  if (48 <=? c) && (c <=? 57) then Some (c - 48)
  else if (97 <=? c) && (c <=? 102) then Some (c - 87)
  else if (65 <=? c) && (c <=? 70) then Some (c - 55)
  else None.

Definition hex4 (a b c d : N) : option N :=
  match hexDigit a, hexDigit b, hexDigit c, hexDigit d with
  | Some x, Some y, Some z, Some w => Some (((x * 16 + y) * 16 + z) * 16 + w)
  | _, _, _, _ => None
  end.

Definition isLineTerminator (c : N) : bool :=
  (c =? LF) || (c =? CR) || (c =? LS) || (c =? PS).

(** [\b \t \n \v \f \r], and the characters that stand for themselves. *)
Definition singleEscape (c : N) : option N :=
  if c =? 98 then Some 8
  else if c =? 116 then Some 9
  else if c =? 110 then Some 10
  else if c =? 118 then Some 11
  else if c =? 102 then Some 12
  else if c =? 114 then Some 13
  else if (c =? BACKSLASH) || (c =? QUOTE) || (c =? DQUOTE) then Some c
  else None.

Fixpoint evalLiteral (body : jsstring) : option jsstring :=
  match body with
  | [] => Some []
  | c :: rest =>
    if c =? BACKSLASH then
      match rest with
      | [] => None
      | e :: rest1 =>
        if e =? 117 then
          match rest1 with
          | h1 :: h2 :: h3 :: h4 :: rest2 =>
            match hex4 h1 h2 h3 h4, evalLiteral rest2 with
            | Some u, Some t => Some (u :: t)
            | _, _ => None
            end
          | _ => None
          end
        else
          match singleEscape e, evalLiteral rest1 with
          | Some u, Some t => Some (u :: t)
          | _, _ => None
          end
      end
    else if (c =? QUOTE) || isLineTerminator c then None
    else
      match evalLiteral rest with
      | Some t => Some (c :: t)
      | None => None
      end
  end.

(** A text without raw line feed or carriage return, as [JSON.stringify]
    without indentation produces. *)
Definition noLineBreak (s : jsstring) : bool :=
  forallb (fun c => negb (c =? LF) && negb (c =? CR)) s.

Definition noSeparator (s : jsstring) : bool :=
  forallb (fun c => negb (c =? LS) && negb (c =? PS)) s.

(** ** JSON values and objects

    The value [JSON.parse] returns.  An object is the list of its own
    enumerable properties in the order ECMAScript enumerates them: array
    indices in ascending order first, then the other keys in the order of
    their creation.  [JInherit proto] is the one object of another kind
    that the loader can build: an object without own property whose
    prototype is [proto], which assigning to the key [__proto__] leaves.
    Numbers are integral here: nothing in the loader reads a number
    beyond whether it is zero. *)

#[warnings="-register-all"]
Inductive json : Type :=
| JNull
| JBool (b : bool)
| JNumber (n : Z)
| JString (s : jsstring)
| JArray (l : list json)
| JObject (o : list (jsstring * json))
| JInherit (proto : json).

Abbreviation props := (list (jsstring * json)).

Module Obj.

Definition isDigit (c : N) : bool := (48 <=? c) && (c <=? 57).

Fixpoint decimalValue (acc : N) (s : jsstring) : option N :=
  match s with
  | [] => Some acc
  | c :: s' => if isDigit c then decimalValue (acc * 10 + (c - 48)) s' else None
  end.

(** The array index a key denotes, if it is the canonical numeral of an
    integer below 2^32 - 1. *)
Definition arrayIndex (k : jsstring) : option N :=
  match k with
  | [] => None
  | c :: rest =>
    if (c =? 48) && nonEmpty rest then None
    else match decimalValue 0 k with
         | Some n => if n <? 4294967295 then Some n else None
         | None => None
         end
  end.

(** Whether a new key [k] is enumerated before the existing key [k']. *)
Definition keyBefore (k k' : jsstring) : bool :=
  match arrayIndex k, arrayIndex k' with
  | Some i, Some j => i <? j
  | Some _, None => true
  | None, _ => false
  end.

Fixpoint get (k : jsstring) (o : props) : option json :=
  match o with
  | [] => None
  | (k', v) :: o' => if eqb k k' then Some v else get k o'
  end.

(** Defining or assigning an own data property: the value of an existing
    key is replaced where it stands, a new key takes its place in the
    enumeration order. *)
Fixpoint set (k : jsstring) (v : json) (o : props) : props :=
  match o with
  | [] => [(k, v)]
  | (k', v') :: o' =>
    if eqb k k' then (k, v) :: o'
    else if keyBefore k k' then (k, v) :: (k', v') :: o'
    else (k', v') :: set k v o'
  end.

(** The key of the [i]-th element of an array or string. *)
Definition indexKey (i : nat) : jsstring :=
  lit (NilZero.string_of_uint (Nat.to_uint i)).

(** The own enumerable properties a spread copies from a value: those of
    an object, the elements of an array, the code units of a string, and
    none of any other value. *)
Definition ownProps (v : json) : props :=
  match v with
  | JObject o => o
  | JArray l => imap (fun i x => (indexKey i, x)) l
  | JString s => imap (fun i c => (indexKey i, JString [c])) s
  | _ => []
  end.

(** [{ ...target, ...source }] and [Object.assign(target, source)]:
    the properties of [source], in order, set on [target]; an undefined
    source adds nothing. *)
Definition assign (target : props) (source : option json) : props :=
  fold_left (fun t kv => set (fst kv) (snd kv) t)
            (match source with Some v => ownProps v | None => [] end) target.

Definition truthy (v : json) : bool :=
  match v with
  | JNull => false
  | JBool b => b
  | JNumber n => negb (n =? 0)%Z
  | JString s => nonEmpty s
  | JArray _ | JObject _ | JInherit _ => true
  end.

(** [Object.assign({}, { [key]: value })].  The assignment goes through
    the setter that every object inherits for [__proto__]: under that key
    an object, an array or [null] becomes the prototype of the result, any
    other value is dropped, and the result has no own property. *)
Definition assignOne (key : jsstring) (value : json) : json :=
  if eqb key (lit "__proto__") then
    match value with
    | JNull | JObject _ | JArray _ | JInherit _ => JInherit value
    | JBool _ | JNumber _ | JString _ => JObject []
    end
  else JObject (assign [] (Some (JObject (set key value [])))).

(** What an object reads from its prototype [proto]. *)
Fixpoint inherited (proto : json) (key : jsstring) : option json :=
  match proto with
  | JObject o => get key o
  | JArray l =>
    match arrayIndex key with
    | Some i => l !! N.to_nat i
    | None => None
    end
  | JInherit above => inherited above key
  | JNull | JBool _ | JNumber _ | JString _ => None
  end.

(** [x || {}] *)
Definition orEmpty (x : option json) : json :=
  match x with
  | Some v => if truthy v then v else JObject []
  | None => JObject []
  end.

End Obj.

(** ** Errors, results and the world of side effects *)

Record error : Type := Error { message : jsstring }.

Inductive result (A : Type) : Type :=
| Return (a : A)
| Throw (e : error).
Arguments Return {A} a.
Arguments Throw {A} e.

#[global] Instance result_ret : MRet result := fun A a => Return a.
#[global] Instance result_bind : MBind result := fun A B f m =>
  match m with
  | Return a => f a
  | Throw e => Throw e
  end.

(** What the loader can do to the file system: the scratch directories
    [tmp.dirSync] has allocated and the files [fs.writeFileSync] has
    written, both in the order of the calls.  Failures of the two
    operations themselves are not modelled. *)
Record world : Type := World {
  scratchDirs : list jsstring;
  written : list (jsstring * jsstring)
}.

Definition io (A : Type) : Type := world -> result A * world.

#[global] Instance io_ret : MRet io := fun A a w => (Return a, w).
#[global] Instance io_bind : MBind io := fun A B f m w =>
  match m w with
  | (Return a, w') => f a w'
  | (Throw e, w') => (Throw e, w')
  end.

Definition throw {A} (e : error) : io A := fun w => (Throw e, w).
Definition liftResult {A} (r : result A) : io A := fun w => (r, w).

(** ** Types of [src/index.ts] and of its collaborators *)

(** A value of [ParsedUrlQuery]: a string, or an array of strings for a
    repeated parameter; an absent parameter has no entry. *)
Inductive qvalue : Type :=
| QString (s : jsstring)
| QArray (l : list jsstring).

Abbreviation ParsedUrlQuery := (gmap jsstring qvalue).

Definition truthyAttr (v : option qvalue) : bool :=
  match v with
  | Some (QString s) => nonEmpty s
  | Some (QArray _) => true
  | None => false
  end.

Definition isStringAttr (v : option qvalue) : bool :=
  match v with Some (QString _) => true | _ => false end.

Definition attrString (v : option qvalue) : jsstring :=
  match v with Some (QString s) => s | _ => [] end.

Record VueI18nLoaderOptions : Type := {
  locales : option (list jsstring);
  fallbackLocale : option jsstring
}.

Inductive source : Type :=
| SourceString (s : jsstring)
| SourceBuffer (bytes : list N).

(** The third argument of [JSON.stringify]. *)
Inductive indent : Type :=
| NoIndent
| IndentString (s : jsstring)
| IndentNumber (n : nat).

(** The functions the loader imports: the parsers and the serializer,
    [querystring.parse], the name [tmp] gives the next directory knowing
    those it has allocated, [Buffer.toString], and the message of the
    TypeError the engine raises when a property of [null] is read.  The
    parsers either throw or return a tree, taken to be a JSON value for
    the three of them, so that the serializer always returns a text: what
    it does with the values YAML has beyond JSON (nothing for an empty
    document, a throw on a cyclic alias) is outside the model. *)
Class Externals : Type := {
  RawSourceMap : Type;
  Buffer_toString : list N -> jsstring;
  yaml_safeLoad : jsstring -> result json;
  JSON5_parse : jsstring -> result json;
  JSON_parse : jsstring -> result json;
  JSON_stringify : json -> indent -> jsstring;
  querystring_parse : jsstring -> ParsedUrlQuery;
  tmp_name : list jsstring -> jsstring;
  nullReadMessage : jsstring -> jsstring
}.

Section Loader.

Context {E : Externals}.

(** [tmp.dirSync()] and [fs.writeFileSync(path, data)] *)
Definition dirSync : io jsstring := fun w =>
  let name := tmp_name (scratchDirs w) in
  (Return name, World (scratchDirs w ++ [name]) (written w)).

Definition writeFileSync (path data : jsstring) : io unit := fun w =>
  (Return tt, World (scratchDirs w) (written w ++ [(path, data)])).

(** [messages[key]].  Reading a property of [null] throws.  Only values
    that a spread can copy something from are told apart from
    [undefined]: inherited methods and [length] have no own enumerable
    properties, so that spreading them adds nothing either. *)
Definition getProp (messages : json) (key : jsstring) : result (option json) :=
  match messages with
  | JNull => Throw (Error (nullReadMessage key))
  | JObject o => Return (Obj.get key o)
  | JArray l =>
    Return (match Obj.arrayIndex key with
            | Some i => l !! N.to_nat i
            | None => None
            end)
  | JString s =>
    Return (match Obj.arrayIndex key with
            | Some i => (fun c => JString [c]) <$> s !! N.to_nat i
            | None => None
            end)
  | JBool _ | JNumber _ => Return None
  | JInherit proto => Return (Obj.inherited proto key)
  end.

(** *** Format Converter (lines 68-81) *)

(** [Buffer.isBuffer(source) ? source.toString() : source] *)
Definition sourceText (source : source) : jsstring :=
  match source with
  | SourceBuffer bytes => Buffer_toString bytes
  | SourceString s => s
  end.

Definition convert (source : source) (lang : option qvalue) : result jsstring :=
  let messages := sourceText source in
  match lang with
  | Some (QString tag) =>
    if eqb tag (lit "yaml") || eqb tag (lit "yml") then
      data ← yaml_safeLoad messages;
      mret (JSON_stringify data (IndentString [9]))
    else if eqb tag (lit "json5") then
      data ← JSON5_parse messages;
      mret (JSON_stringify data NoIndent)
    else mret messages
  | _ => mret messages
  end.

(** *** String Sanitizer, the caller's part (lines 83-85) *)

Definition stringifyMessages (messages : json) : jsstring :=
  [QUOTE] ++ cleanMessagesString (JSON_stringify messages NoIndent) ++ [QUOTE].

(** *** Lazy Fragment Materializer (lines 95-136) *)

Definition isSeparator (c : N) : bool := (c =? BACKSLASH) || (c =? SLASH).

(** The second group of the leftmost match of
    [/(^|[\\/])([^\\/?]+)(\?|$)/]: a candidate starts at the beginning of
    the path or after a separator, extends over the code units that are
    neither separator nor question mark, and matches when it is not empty
    and a question mark or the end of the path follows.  [candidate]
    tells whether the units read since the last separator can still be
    the group, [acc] holds them in reverse. *)
Fixpoint matchFilename (candidate : bool) (acc path : jsstring) : option jsstring :=
  match path with
  | [] => if candidate && nonEmpty acc then Some (rev acc) else None
  | c :: rest =>
    if isSeparator c then matchFilename true [] rest
    else if c =? QUESTION then
      if candidate && nonEmpty acc then Some (rev acc)
      else matchFilename false [] rest
    else if candidate then matchFilename true (c :: acc) rest
    else matchFilename false [] rest
  end.

Definition configurationError : error :=
  Error (lit "[VueI18nLoaderPlugin Error] The options " ++ [DQUOTE]
         ++ lit "locales" ++ [DQUOTE] ++ lit " and " ++ [DQUOTE]
         ++ lit "fallbackLocale" ++ [DQUOTE]
         ++ lit " are required with lazy loaded files.").

(** [!options.locales || !options.fallbackLocale]: an array is truthy
    even when empty, a string only when not empty. *)
Definition lacksLazyOptions (options : VueI18nLoaderOptions) : bool :=
  negb (bool_decide (is_Some (locales options)))
  || negb (nonEmpty (default [] (fallbackLocale options))).

Definition prefix : jsstring := lit "__vue-i18n__".

(** The object literal of lines 125-132. *)
Definition localeSpecificMessages
    (base override : option json) (locale : jsstring) : json :=
  JObject (Obj.set locale
             (JObject (Obj.assign (Obj.assign [] base)
                                  (Some (Obj.orEmpty override))))
             []).

(** The callback of [options.locales.map] (lines 123-134). *)
Definition writeLocale (dir filename : jsstring) (messages : json)
    (options : VueI18nLoaderOptions) (locale : jsstring) : io unit :=
  let filePath := dir ++ lit "/" ++ prefix ++ locale ++ lit "__" ++ filename in
  base ← liftResult (getProp messages (default [] (fallbackLocale options)));
  override ← liftResult (getProp messages locale);
  writeFileSync filePath
    (JSON_stringify (localeSpecificMessages base override locale) (IndentNumber 2)).

Definition generateDynamicRequireString (filename : jsstring) (messages : json)
    (options : VueI18nLoaderOptions) : io jsstring :=
  if lacksLazyOptions options then throw configurationError
  else
    dir ← dirSync;
    _ ← mapM (writeLocale dir filename messages options)
             (default [] (locales options));
    mret (lit "require('" ++ dir ++ lit "/" ++ prefix
          ++ lit "' + window.__VUE_I18N_CURRENT_LOCALE__ + '__"
          ++ filename ++ lit "')").

Definition stringifyLazyMessages (resourcePath : jsstring) (messages : json)
    (options : VueI18nLoaderOptions) : io jsstring :=
  let filename := default (lit "locale.json") (matchFilename true [] resourcePath) in
  required ← generateDynamicRequireString filename messages options;
  mret (lit "JSON.stringify(" ++ required ++ lit ")").

(** *** Message Table Builder and Code Emitter (lines 45-66) *)

(** Lines 54-56: the table under the [locale] attribute. *)
Definition withLocale (attrs : ParsedUrlQuery) (messages : json) : json :=
  let locale := attrs !! lit "locale" in
  if truthyAttr locale && isStringAttr locale then
    Obj.assignOne (attrString locale) messages
  else messages.

(** Lines 61-65: the template of the module. *)
Definition moduleText (messagesString : jsstring) : jsstring :=
  lit "module.exports = function (Component) {" ++ [LF]
  ++ lit "  Component.options.__i18n = Component.options.__i18n || []" ++ [LF]
  ++ lit "  Component.options.__i18n.push(" ++ messagesString ++ lit ")" ++ [LF]
  ++ lit "  delete Component.options._Ctor" ++ [LF]
  ++ lit "}" ++ [LF].

Definition generateCode (source : source) (resourcePath : jsstring)
    (attrs : ParsedUrlQuery) (options : VueI18nLoaderOptions) : io jsstring :=
  data ← liftResult (convert source (attrs !! lit "lang"));
  parsed ← liftResult (JSON_parse data);
  let messages := withLocale attrs parsed in
  messagesString ←
    (if truthyAttr (attrs !! lit "lazy")
     then stringifyLazyMessages resourcePath messages options
     else mret (stringifyMessages messages));
  mret (moduleText messagesString).

(** *** Transform Entry Point (lines 15-43) *)

(** The loader context: [cacheable] tells whether [this.cacheable] is
    defined. *)
Record loaderContext : Type := {
  version : option Z;
  cacheable : bool;
  resourcePath : jsstring;
  resourceQuery : jsstring;
  query : VueI18nLoaderOptions
}.

(** The calls the loader makes on its context. *)
Inductive call : Type :=
| Cacheable
| EmitError (message : jsstring)
| Callback (err : option error) (content : option jsstring)
           (sourceMap : option RawSourceMap).

(** [this.version && Number(this.version) >= 2] *)
Definition versionSupported (version : option Z) : bool :=
  match version with
  | Some v => negb (v =? 0)%Z && (2 <=? v)%Z
  | None => false
  end.

Definition capabilityMessage : jsstring := lit "support webpack 2 later".

Definition loader (this : loaderContext) (source : source)
    (sourceMap : option RawSourceMap) (w : world) : list call * world :=
  let options := query this in
  if versionSupported (version this) then
    let calls := if cacheable this then [Cacheable] else [] in
    match generateCode source (resourcePath this)
            (querystring_parse (resourceQuery this)) options w with
    | (Return code, w') => (calls ++ [Callback None (Some code) sourceMap], w')
    | (Throw err, w') =>
      (calls ++ [EmitError (message err); Callback (Some err) None None], w')
    end
  else
    let message := capabilityMessage in
    ([EmitError message; Callback (Some (Error message)) None None], w).

End Loader.

(** ** The emitted module at run time

    What the function of [moduleText] does to the options of the
    component it is given, [entry] being the value of the spliced
    expression. *)

Section Runtime.

Variables entry ctor : Type.

Record componentOptions : Type := {
  __i18n : option (list entry);
  _Ctor : option ctor
}.

Definition installMessages (e : entry) (options : componentOptions) : componentOptions :=
  (* Component.options.__i18n = Component.options.__i18n || [] *)
  let bag := default [] (__i18n options) in
  (* Component.options.__i18n.push(entry) *)
  let bag := bag ++ [e] in
  (* delete Component.options._Ctor *)
  {| __i18n := Some bag; _Ctor := None |}.

End Runtime.

(** ** A stand-in for the collaborators

    Enough to run the loader on the examples of this file: the parsers
    know the texts of the examples only, the serializer prints compactly
    whatever the indentation and escapes quotation marks and backslashes
    only. *)

Module Sample.

Definition quoted (s : jsstring) : jsstring :=
  [DQUOTE]
  ++ flat_map (fun c => if (c =? DQUOTE) || (c =? BACKSLASH)
                        then [BACKSLASH; c] else [c]) s
  ++ [DQUOTE].

Fixpoint stringify (v : json) : jsstring :=
  match v with
  | JNull => lit "null"
  | JBool b => if b then lit "true" else lit "false"
  | JNumber n => lit (NilZero.string_of_int (Z.to_int n))
  | JString s => quoted s
  | JArray l =>
    lit "["
    ++ (fix items (l : list json) : jsstring :=
          match l with
          | [] => []
          | [x] => stringify x
          | x :: l' => stringify x ++ lit "," ++ items l'
          end) l
    ++ lit "]"
  | JObject o =>
    lit "{"
    ++ (fix members (o : props) : jsstring :=
          match o with
          | [] => []
          | [(k, x)] => quoted k ++ lit ":" ++ stringify x
          | (k, x) :: o' => quoted k ++ lit ":" ++ stringify x ++ lit "," ++ members o'
          end) o
    ++ lit "}"
  | JInherit _ => lit "{}"
  end.

(** A JSON text with a single quote and a backslash. *)
Definition text : jsstring :=
  stringify (JObject [(lit "a", JString (lit "it's C:\dir"))]).

Definition hello : json := JObject [(lit "hello", JString (lit "hi"))].

(** The table of the specification's example. *)
Definition table : props :=
  [ (lit "en", hello);
    (lit "fr", JObject [(lit "hello", JString (lit "salut"));
                        (lit "bonus", JString (lit "x"))]) ].

Definition known (texts : list (jsstring * json)) (text : jsstring) : result json :=
  match Obj.get text texts with
  | Some v => Return v
  | None => Throw (Error (lit "Unexpected token"))
  end.

Definition query : jsstring := lit "?vue&type=custom&blockType=i18n&lazy=true".

#[local] Instance externals : Externals := {|
  RawSourceMap := unit;
  Buffer_toString := fun bytes => bytes;
  yaml_safeLoad := known [(lit "hello: hi", hello)];
  JSON5_parse := known [(lit "{hello:'hi'}", hello)];
  JSON_parse :=
    known [(stringify (JObject []), JObject []);
           (stringify hello, hello);
           (stringify (JObject table), JObject table)];
  JSON_stringify := fun v _ => stringify v;
  querystring_parse := fun q =>
    if eqb q query
    then {[ lit "?vue" := QString [];
            lit "type" := QString (lit "custom");
            lit "blockType" := QString (lit "i18n");
            lit "lazy" := QString (lit "true") ]}
    else ∅;
  tmp_name := fun dirs => lit "/tmp/tmp-" ++ Obj.indexKey (length dirs);
  nullReadMessage := fun key =>
    lit "Cannot read property '" ++ key ++ lit "' of null"
|}.

Definition options : VueI18nLoaderOptions :=
  {| locales := Some [lit "en"; lit "fr"; lit "de"];
     fallbackLocale := Some (lit "en") |}.

Definition noOptions : VueI18nLoaderOptions :=
  {| locales := None; fallbackLocale := None |}.

Definition nothing : world := World [] [].

End Sample.

(** ** Notions for the statements below *)

(** A path segment: no separator and no question mark. *)
Definition segmentText (s : jsstring) : bool :=
  forallb (fun c => negb (isSeparator c) && negb (c =? QUESTION)) s.

Definition noQuestion (s : jsstring) : bool :=
  forallb (fun c => negb (c =? QUESTION)) s.

(** Text that a single-quoted literal holds as it is: no backslash, no
    single quote, no line terminator. *)
Definition plainText (s : jsstring) : bool :=
  forallb (fun c => negb (c =? BACKSLASH) && negb (c =? QUOTE)
                    && negb (isLineTerminator c)) s.

(** Text that the sanitizer has nothing to escape in. *)
Definition nothingToEscape (s : jsstring) : bool :=
  forallb (fun c => negb (c =? LS) && negb (c =? PS)
                    && negb (c =? BACKSLASH) && negb (c =? QUOTE)) s.

(** Text free of what would end a single-quoted literal or, before
    ES2019, the line it stands on. *)
Definition noDelimiter (s : jsstring) : bool :=
  forallb (fun c => negb (c =? QUOTE) && negb (c =? LS) && negb (c =? PS)) s.

(** An object as [JSON.parse] builds them: no key twice. *)
Fixpoint distinctKeys (o : props) : bool :=
  match o with
  | [] => true
  | (k, _) :: o' =>
    match Obj.get k o' with
    | Some _ => false
    | None => distinctKeys o'
    end
  end.

(** The content of a file after the writes of a log, the last write to
    the path being the one that counts ([fs.writeFileSync] replaces the
    file). *)
Fixpoint readFile (path : jsstring) (files : list (jsstring * jsstring))
    : option jsstring :=
  match files with
  | [] => None
  | (p, content) :: rest =>
    match readFile path rest with
    | Some later => Some later
    | None => if eqb path p then Some content else None
    end
  end.

(** ** The sanitizer, unit by unit *)

Section Sanitizer.

(** Runs [evalLiteral] over the escape sequence at the head of the goal. *)
Ltac read_escape :=
  unfold escLS, escPS, escBackslash, escQuote, lit; cbn;
  destruct (evalLiteral _); reflexivity.

Lemma replaceAll_app c r s t :
  replaceAll c r (s ++ t) = replaceAll c r s ++ replaceAll c r t.
Proof. unfold replaceAll. apply flat_map_app. Qed.

Lemma flat_map_replaceAll c r (f : N -> jsstring) s :
  replaceAll c r (flat_map f s) = flat_map (fun x => replaceAll c r (f x)) s.
Proof.
  induction s as [|x s IH]; simpl; [reflexivity|].
  now rewrite replaceAll_app, IH.
Qed.

Lemma escapeSeparators_units s :
  escapeSeparators s = flat_map separatorUnit s.
Proof.
  unfold escapeSeparators.
  unfold replaceAll at 2. rewrite flat_map_replaceAll.
  apply flat_map_ext. intros c. unfold separatorUnit.
  destruct (N.eqb_spec c LS) as [->|HLS]; [reflexivity|].
  simpl. destruct (N.eqb_spec c PS); reflexivity.
Qed.

Lemma cleanMessagesString_units s :
  cleanMessagesString s = flat_map cleanUnit s.
Proof.
  unfold cleanMessagesString.
  unfold replaceAll at 4. rewrite !flat_map_replaceAll.
  apply flat_map_ext. intros c. unfold cleanUnit.
  destruct (N.eqb_spec c LS) as [->|HLS]; [reflexivity|].
  destruct (N.eqb_spec c PS) as [->|HPS]; [reflexivity|].
  destruct (N.eqb_spec c BACKSLASH) as [->|HB]; [reflexivity|].
  destruct (N.eqb_spec c QUOTE) as [->|HQ]; [reflexivity|].
  cbn [replaceAll flat_map].
  rewrite (proj2 (N.eqb_neq c PS) HPS). cbn [flat_map app].
  rewrite (proj2 (N.eqb_neq c BACKSLASH) HB). cbn [flat_map app].
  rewrite (proj2 (N.eqb_neq c QUOTE) HQ). reflexivity.
Qed.

Lemma cleanMessagesString_stages s :
  cleanMessagesString s = escapeQuotes (escapeBackslashes (escapeSeparators s)).
Proof. reflexivity. Qed.

(** Reading back what the chain made of one code unit gives what the
    separator stage made of it. *)
Lemma evalLiteral_cleanUnit c t :
  c <> LF -> c <> CR ->
  evalLiteral (cleanUnit c ++ t) =
  match evalLiteral t with
  | Some t' => Some (separatorUnit c ++ t')
  | None => None
  end.
Proof.
  intros HLF HCR. unfold cleanUnit, separatorUnit.
  destruct (N.eqb_spec c LS) as [->|HLS].
  { read_escape. }
  destruct (N.eqb_spec c PS) as [->|HPS].
  { read_escape. }
  destruct (N.eqb_spec c BACKSLASH) as [->|HB].
  { read_escape. }
  destruct (N.eqb_spec c QUOTE) as [->|HQ].
  { read_escape. }
  cbn [app evalLiteral].
  rewrite (proj2 (N.eqb_neq c BACKSLASH) HB), (proj2 (N.eqb_neq c QUOTE) HQ).
  unfold isLineTerminator.
  rewrite (proj2 (N.eqb_neq c LF) HLF), (proj2 (N.eqb_neq c CR) HCR),
    (proj2 (N.eqb_neq c LS) HLS), (proj2 (N.eqb_neq c PS) HPS).
  reflexivity.
Qed.

Lemma evalLiteral_clean s :
  noLineBreak s = true ->
  evalLiteral (cleanMessagesString s) = Some (escapeSeparators s).
Proof.
  rewrite cleanMessagesString_units, escapeSeparators_units.
  induction s as [|c s IH]; [reflexivity|].
  cbn [noLineBreak forallb]. rewrite !andb_true_iff, !negb_true_iff, !N.eqb_neq.
  intros [[HLF HCR] Hs].
  cbn [flat_map]. rewrite evalLiteral_cleanUnit by assumption.
  now rewrite (IH Hs).
Qed.

Lemma escapeSeparators_id s : noSeparator s = true -> escapeSeparators s = s.
Proof.
  rewrite escapeSeparators_units.
  induction s as [|c s IH]; [reflexivity|].
  cbn [noSeparator forallb]. rewrite !andb_true_iff, !negb_true_iff.
  intros [[HLS HPS] Hs].
  cbn [flat_map]. rewrite (IH Hs). unfold separatorUnit.
  now rewrite HLS, HPS.
Qed.

Lemma length_separatorUnits s :
  (length s <= length (flat_map separatorUnit s))%nat.
Proof.
  induction s as [|c s IH]; [reflexivity|].
  cbn [flat_map]. rewrite length_app. cbn [length].
  assert (HLS : length escLS = 6%nat) by reflexivity.
  assert (HPS : length escPS = 6%nat) by reflexivity.
  unfold separatorUnit at 1.
  destruct (c =? LS); [lia|]. destruct (c =? PS); [lia|]. cbn [length]. lia.
Qed.

(** A text that holds a separator is changed by the separator stage. *)
Lemma escapeSeparators_fixed s : escapeSeparators s = s -> noSeparator s = true.
Proof.
  rewrite escapeSeparators_units.
  induction s as [|c s IH]; [reflexivity|].
  cbn [flat_map noSeparator forallb]. unfold separatorUnit at 1.
  pose proof (length_separatorUnits s) as Hlen.
  destruct (c =? LS) eqn:HLS.
  { intros H. apply (f_equal (@length N)) in H.
    rewrite length_app in H. cbn [length] in H.
    assert (H6 : length escLS = 6%nat /\ length escPS = 6%nat)
      by (split; reflexivity).
    lia. }
  destruct (c =? PS) eqn:HPS.
  { intros H. apply (f_equal (@length N)) in H.
    rewrite length_app in H. cbn [length] in H.
    assert (H6 : length escLS = 6%nat /\ length escPS = 6%nat)
      by (split; reflexivity).
    lia. }
  intros [= H]. cbn. now apply IH.
Qed.

Lemma escapeOnce_clean s :
  noSeparator s = true -> cleanMessagesString s = escapeOnce s.
Proof.
  rewrite cleanMessagesString_units. unfold escapeOnce.
  induction s as [|c s IH]; [reflexivity|].
  cbn [noSeparator forallb]. rewrite !andb_true_iff, !negb_true_iff.
  intros [[HLS HPS] Hs].
  cbn [flat_map]. rewrite (IH Hs). f_equal.
  unfold cleanUnit, escapeOnceUnit.
  now rewrite HLS, HPS.
Qed.

End Sanitizer.

(** A whole single-quoted literal: the body between its two quotes. *)
Lemma evalLiteral_stringifyMessages `{Externals} messages :
  noLineBreak (JSON_stringify messages NoIndent) = true ->
  exists body,
    stringifyMessages messages = [QUOTE] ++ body ++ [QUOTE]
    /\ evalLiteral body = Some (escapeSeparators (JSON_stringify messages NoIndent)).
Proof.
  intros Hs. exists (cleanMessagesString (JSON_stringify messages NoIndent)).
  split; [reflexivity|]. now apply evalLiteral_clean.
Qed.

(** A raw line feed makes the literal ill formed: the sanitizer relies on
    [JSON.stringify] not to produce any. *)
Lemma literal_rejects_line_feed :
  evalLiteral (cleanMessagesString (lit "[" ++ [LF] ++ lit "]")) = None.
Proof. reflexivity. Qed.

(** C1, as stated, fails: the literal made of the JSON text of the string
    that holds U+2028 alone does not read back as that text. *)
Lemma sanitize_roundtrip_loses_separator :
  evalLiteral (cleanMessagesString [DQUOTE; LS; DQUOTE])
  <> Some [DQUOTE; LS; DQUOTE].
Proof. vm_compute. discriminate. Qed.

(** C1, amended: for every text without raw line feed or carriage return,
    the body of the literal the sanitizer makes is well formed and reads
    back as the text in which each U+2028 and U+2029 is replaced by its
    six-unit escape sequence; it reads back as the original text itself
    if and only if the text holds neither of the two. *)
Theorem sanitize_roundtrip (s : jsstring) :
  noLineBreak s = true ->
  evalLiteral (cleanMessagesString s) = Some (escapeSeparators s)
  /\ (evalLiteral (cleanMessagesString s) = Some s <-> noSeparator s = true).
Proof.
  intros Hs. split; [now apply evalLiteral_clean|].
  rewrite evalLiteral_clean by assumption. split.
  - intros [= H]. now apply escapeSeparators_fixed.
  - intros Hsep. now rewrite escapeSeparators_id.
Qed.

(** C3, as stated, fails: the backslash that the separator stage puts
    before [u2028] is doubled by the backslash stage, so that the chain
    does not give U+2028 its escape sequence but that sequence escaped
    again. *)
Lemma sanitize_escapes_separator_twice :
  escapeBackslashes (escapeSeparators [LS]) <> escapeSeparators [LS]
  /\ cleanMessagesString [LS] <> escapeOnce [LS].
Proof. split; vm_compute; discriminate. Qed.

(** C3, amended: the sanitizer replaces the two separators first, then
    the backslashes, then the single quotes.  In that order the backslash
    of a separator's escape sequence is doubled (U+2028 becomes two
    backslashes and [u2028]), while the backslash of the quote's escape
    sequence, put last, is not; a text without separators has each of its
    backslashes and quotes escaped exactly once.  The order matters:
    quotes before backslashes gives another text. *)
Theorem sanitize_order (s : jsstring) :
  cleanMessagesString s = escapeQuotes (escapeBackslashes (escapeSeparators s))
  /\ cleanMessagesString s = flat_map cleanUnit s
  /\ cleanUnit LS = BACKSLASH :: BACKSLASH :: lit "u2028"
  /\ cleanUnit PS = BACKSLASH :: BACKSLASH :: lit "u2029"
  /\ cleanUnit BACKSLASH = [BACKSLASH; BACKSLASH]
  /\ cleanUnit QUOTE = BACKSLASH :: lit "u0027"
  /\ (noSeparator s = true -> cleanMessagesString s = escapeOnce s)
  /\ escapeBackslashes (escapeQuotes [QUOTE])
     <> escapeQuotes (escapeBackslashes [QUOTE]).
Proof.
  split; [apply cleanMessagesString_stages|].
  split; [apply cleanMessagesString_units|].
  repeat (split; [reflexivity|]).
  split; [apply escapeOnce_clean|].
  vm_compute. discriminate.
Qed.


(** ** Objects *)

Section Objects.

Lemma eqb_eq (a b : jsstring) : eqb a b = true <-> a = b.
Proof.
  revert b. induction a as [|x a IH]; intros [|y b]; simpl; try easy.
  rewrite andb_true_iff, N.eqb_eq, IH. split.
  - now intros [-> ->].
  - intros [= -> ->]. now split.
Qed.

Lemma eqb_refl (a : jsstring) : eqb a a = true.
Proof. now apply eqb_eq. Qed.

Lemma eqb_neq (a b : jsstring) : eqb a b = false <-> a <> b.
Proof.
  rewrite <- eqb_eq. destruct (eqb a b); split; congruence.
Qed.

Lemma get_set k k' v o :
  Obj.get k (Obj.set k' v o) = if eqb k k' then Some v else Obj.get k o.
Proof.
  induction o as [|[k1 v1] o IH]; simpl; [reflexivity|].
  destruct (eqb k' k1) eqn:E1.
  - apply eqb_eq in E1 as ->. simpl. now destruct (eqb k k1).
  - destruct (Obj.keyBefore k' k1); simpl.
    + reflexivity.
    + rewrite IH. destruct (eqb k k1) eqn:E2; [|reflexivity].
      apply eqb_eq in E2 as ->.
      destruct (eqb k1 k') eqn:E3; [|reflexivity].
      apply eqb_eq in E3 as ->. now rewrite eqb_refl in E1.
Qed.

(** Copying properties onto a target: a key reads as what the copy alone
    holds for it, and as the target's value otherwise. *)
Lemma get_copy k (source : props) (target : props) :
  Obj.get k (fold_left (fun t kv => Obj.set (fst kv) (snd kv) t) source target)
  = match Obj.get k (fold_left (fun t kv => Obj.set (fst kv) (snd kv) t) source []) with
    | Some v => Some v
    | None => Obj.get k target
    end.
Proof.
  revert target. induction source as [|[k1 v1] source IH]; intros target;
    [reflexivity|].
  cbn [fold_left fst snd]. rewrite IH.
  rewrite (IH (Obj.set k1 v1 [])). rewrite get_set. simpl.
  destruct (Obj.get k (fold_left _ source [])); [reflexivity|].
  now destruct (eqb k k1).
Qed.

Lemma get_assign k target source :
  Obj.get k (Obj.assign target source)
  = match Obj.get k (Obj.assign [] source) with
    | Some v => Some v
    | None => Obj.get k target
    end.
Proof. unfold Obj.assign. apply get_copy. Qed.

Lemma get_absent k (o : props) : k ∉ o.*1 -> Obj.get k o = None.
Proof.
  induction o as [|[k1 v1] o IH]; [reflexivity|].
  cbn. rewrite not_elem_of_cons. intros [Hne Hnin].
  now rewrite (proj2 (eqb_neq k k1) Hne), IH.
Qed.

(** An object whose keys are distinct reads the same once copied. *)
Lemma get_assign_object k (o : props) :
  NoDup o.*1 -> Obj.get k (Obj.assign [] (Some (JObject o))) = Obj.get k o.
Proof.
  unfold Obj.assign. cbn [Obj.ownProps].
  induction o as [|[k1 v1] o IH]; [reflexivity|].
  cbn [fmap list_fmap fst]. rewrite NoDup_cons. intros [Hnin Hnd].
  cbn [fold_left fst snd]. rewrite get_copy, IH by assumption. cbn.
  destruct (eqb k k1) eqn:E1.
  - apply eqb_eq in E1 as ->. now rewrite get_absent.
  - now destruct (Obj.get k o).
Qed.

End Objects.

(** ** Lazy Fragment Materializer *)

Section Materializer.

Context {E : Externals}.

Lemma run_bind {A B} (m : io A) (f : A -> io B) w :
  (m ≫= f) w
  = match m w with
    | (Return a, w') => f a w'
    | (Throw e, w') => (Throw e, w')
    end.
Proof. reflexivity. Qed.

Lemma run_lift_bind {A B} (r : result A) (f : A -> io B) w :
  (liftResult r ≫= f) w
  = match r with
    | Return a => f a w
    | Throw e => (Throw e, w)
    end.
Proof. rewrite run_bind. unfold liftResult. now destruct r. Qed.

Lemma lacksLazyOptions_false locales fallback :
  nonEmpty fallback = true ->
  lacksLazyOptions {| locales := Some locales; fallbackLocale := Some fallback |}
  = false.
Proof. intros H. unfold lacksLazyOptions. cbn. now rewrite H. Qed.


(** The writes of the loop over the locales, one per entry, in order. *)
Lemma mapM_writeLocale dir filename (table : props) options locales w :
  mapM (writeLocale dir filename (JObject table) options) locales w
  = (Return ((fun _ => tt) <$> locales),
     World (scratchDirs w)
       (written w ++
        ((fun locale =>
           (dir ++ lit "/__vue-i18n__" ++ locale ++ lit "__" ++ filename,
            JSON_stringify
              (localeSpecificMessages
                 (Obj.get (default [] (fallbackLocale options)) table)
                 (Obj.get locale table) locale)
              (IndentNumber 2))) <$> locales))).
Proof.
  revert w. induction locales as [|locale locales IH]; intros [dirs files].
  - cbn. now rewrite app_nil_r.
  - cbn [mapM fmap list_fmap]. rewrite run_bind.
    unfold writeLocale at 1. cbn [getProp]. rewrite !run_lift_bind.
    cbn [writeFileSync scratchDirs written]. rewrite run_bind, IH.
    cbn [scratchDirs written]. unfold mret, io_ret.
    rewrite <- app_assoc. reflexivity.
Qed.

Lemma generateDynamicRequireString_throws filename messages options w :
  lacksLazyOptions options = true ->
  generateDynamicRequireString filename messages options w
  = (Throw configurationError, w).
Proof. intros H. unfold generateDynamicRequireString. now rewrite H. Qed.

Lemma stringifyLazyMessages_throws resourcePath messages options w :
  lacksLazyOptions options = true ->
  stringifyLazyMessages resourcePath messages options w
  = (Throw configurationError, w).
Proof.
  intros H. unfold stringifyLazyMessages.
  now rewrite run_bind, generateDynamicRequireString_throws.
Qed.



End Materializer.

(** ** Format Converter, Message Table Builder, Code Emitter *)

Section Generate.

Context {E : Externals}.

Lemma convert_other source lang :
  eqb (attrString lang) (lit "yaml") || eqb (attrString lang) (lit "yml")
  || eqb (attrString lang) (lit "json5") = false ->
  convert source lang = Return (sourceText source).
Proof.
  intros H. unfold convert.
  destruct lang as [[tag|l]|]; try reflexivity.
  cbn [attrString] in H. apply orb_false_iff in H as [H ->].
  now rewrite H.
Qed.

(** C5: the converter chooses by the tag: for [yaml] and [yml] the text
    goes through the YAML parser and comes back as JSON text indented
    with a tab; for [json5] it goes through the relaxed parser and comes
    back as compact JSON text; for any other tag, an absent or a repeated
    one included, the text comes back as it is, unread.  The result
    depends on the two arguments only, and the world is left as it was. *)
Theorem convert_dispatch (source : source) (lang : option qvalue) (w : world) :
  convert source (Some (QString (lit "yaml")))
  = (data ← yaml_safeLoad (sourceText source);
     mret (JSON_stringify data (IndentString [9])))
  /\ convert source (Some (QString (lit "yml")))
     = (data ← yaml_safeLoad (sourceText source);
        mret (JSON_stringify data (IndentString [9])))
  /\ convert source (Some (QString (lit "json5")))
     = (data ← JSON5_parse (sourceText source);
        mret (JSON_stringify data NoIndent))
  /\ (eqb (attrString lang) (lit "yaml") || eqb (attrString lang) (lit "yml")
      || eqb (attrString lang) (lit "json5") = false ->
      convert source lang = Return (sourceText source))
  /\ (forall text, convert (SourceString text) None = Return text)
  /\ liftResult (convert source lang) w = (convert source lang, w).
Proof.
  repeat split; try reflexivity.
  - apply convert_other.
Qed.

Lemma withLocale_cases attrs parsed :
  withLocale attrs parsed
  = match attrs !! lit "locale" with
    | Some (QString locale) =>
      if nonEmpty locale then Obj.assignOne locale parsed else parsed
    | _ => parsed
    end.
Proof.
  unfold withLocale.
  destruct (attrs !! lit "locale") as [[locale|l]|]; try reflexivity.
  cbn. now destruct (nonEmpty locale).
Qed.

Lemma assignOne_plain key value :
  eqb key (lit "__proto__") = false ->
  Obj.assignOne key value = JObject [(key, value)].
Proof. intros H. unfold Obj.assignOne. now rewrite H. Qed.

Lemma generateCode_converted source resourcePath attrs options w data parsed :
  convert source (attrs !! lit "lang") = Return data ->
  JSON_parse data = Return parsed ->
  generateCode source resourcePath attrs options w
  = ((if truthyAttr (attrs !! lit "lazy")
      then stringifyLazyMessages resourcePath (withLocale attrs parsed) options
      else mret (stringifyMessages (withLocale attrs parsed)))
     ≫= fun messagesString => mret (moduleText messagesString)) w.
Proof.
  intros Hc Hp. unfold generateCode.
  now rewrite run_lift_bind, Hc, run_lift_bind, Hp.
Qed.

Lemma generateCode_eager source resourcePath attrs options w data parsed :
  convert source (attrs !! lit "lang") = Return data ->
  JSON_parse data = Return parsed ->
  truthyAttr (attrs !! lit "lazy") = false ->
  generateCode source resourcePath attrs options w
  = (Return (moduleText (stringifyMessages (withLocale attrs parsed))), w).
Proof.
  intros Hc Hp Hl.
  now rewrite (generateCode_converted _ _ _ _ _ _ _ Hc Hp), Hl.
Qed.


Lemma generateCode_moduleText source resourcePath attrs options w code w' :
  generateCode source resourcePath attrs options w = (Return code, w') ->
  exists messagesString, code = moduleText messagesString.
Proof.
  unfold generateCode. rewrite run_lift_bind.
  destruct (convert source (attrs !! lit "lang")) as [data|e]; [|discriminate].
  rewrite run_lift_bind.
  destruct (JSON_parse data) as [parsed|e]; [|discriminate].
  rewrite run_bind.
  destruct (_ w) as [[messagesString|e] w1]; [|discriminate].
  intros [= <- <-]. now exists messagesString.
Qed.



(** Under a [locale] attribute that is a non-empty string other than
    [__proto__], the table is the object whose only key is that locale
    and whose value is the parsed resource, whatever the resource holds;
    [en] over [{hello: "hi"}] gives [{en: {hello: "hi"}}]; without the
    attribute the parsed resource is the table.  The module is generated
    from that table. *)
Lemma locale_override_wraps
    (attrs : ParsedUrlQuery) (parsed : json) (locale : jsstring) :
  nonEmpty locale = true ->
  eqb locale (lit "__proto__") = false ->
  (attrs !! lit "locale" = Some (QString locale) ->
   withLocale attrs parsed = JObject [(locale, parsed)])
  /\ withLocale {[ lit "locale" := QString (lit "en") ]} Sample.hello
     = JObject [(lit "en", JObject [(lit "hello", JString (lit "hi"))])]
  /\ (attrs !! lit "locale" = None -> withLocale attrs parsed = parsed)
  /\ (forall source resourcePath options w data,
        attrs !! lit "locale" = Some (QString locale) ->
        convert source (attrs !! lit "lang") = Return data ->
        JSON_parse data = Return parsed ->
        truthyAttr (attrs !! lit "lazy") = false ->
        generateCode source resourcePath attrs options w
        = (Return (moduleText (stringifyMessages (JObject [(locale, parsed)]))), w)).
Proof.
  intros Hne Hp. split; [|split; [|split]].
  - intros H. now rewrite withLocale_cases, H, Hne, assignOne_plain.
  - reflexivity.
  - intros H. now rewrite withLocale_cases, H.
  - intros source resourcePath options w data H Hc Hpa Hl.
    rewrite (generateCode_eager _ _ _ _ _ _ _ Hc Hpa Hl).
    now rewrite withLocale_cases, H, Hne, assignOne_plain.
Qed.

(** C6 fails in the code under the locale [__proto__]: the table built
    over [{hello: "hi"}] is not [{__proto__: {hello: "hi"}}] but an object
    without any key of its own, which only inherits from the parsed
    resource; so does every table built under that locale, and the eager
    module is generated from that empty-looking object. *)
Theorem locale_proto_is_not_wrapped :
  withLocale {[ lit "locale" := QString (lit "__proto__") ]} Sample.hello
  = JInherit Sample.hello
  /\ withLocale {[ lit "locale" := QString (lit "__proto__") ]} Sample.hello
     <> JObject [(lit "__proto__", Sample.hello)]
  /\ Obj.ownProps
       (withLocale {[ lit "locale" := QString (lit "__proto__") ]} Sample.hello)
     = []
  /\ generateCode (E := Sample.externals)
       (SourceString (Sample.stringify Sample.hello)) (lit "/src/App.vue")
       {[ lit "locale" := QString (lit "__proto__") ]} Sample.noOptions
       Sample.nothing
     = (Return (moduleText (lit "'{}'")), Sample.nothing).
Proof.
  split; [reflexivity|]. split; [discriminate|]. split; [reflexivity|].
  vm_compute. reflexivity.
Qed.

(** C10: the table is wrapped only under a [locale] attribute that is a
    non-empty string: an absent attribute, an empty string and an array
    (a repeated parameter) leave the parsed resource as the table, and a
    table that is not the parsed resource was built under a non-empty
    string. *)
Theorem locale_wrap_needs_truthy_string
    (attrs : ParsedUrlQuery) (parsed : json) :
  (attrs !! lit "locale" = None
   \/ attrs !! lit "locale" = Some (QString [])
   \/ (exists l, attrs !! lit "locale" = Some (QArray l)) ->
   withLocale attrs parsed = parsed)
  /\ (withLocale attrs parsed = parsed
      \/ exists locale,
           attrs !! lit "locale" = Some (QString locale)
           /\ locale <> []
           /\ withLocale attrs parsed = Obj.assignOne locale parsed).
Proof.
  rewrite withLocale_cases. split.
  - intros [H|[H|[l H]]]; now rewrite H.
  - destruct (attrs !! lit "locale") as [[[|c locale]|l]|]; try now left.
    right. now exists (c :: locale).
Qed.

(** C8, as stated, fails: a query that has the [lazy] parameter with an
    empty value takes the eager path, though the options would allow the
    lazy one: the module carries the literal and the world is untouched. *)
Lemma lazy_present_but_empty_is_eager :
  let attrs : ParsedUrlQuery := {[ lit "lazy" := QString [] ]} in
  is_Some (attrs !! lit "lazy")
  /\ generateCode (E := Sample.externals) (SourceString (lit "{}"))
       (lit "/src/App.vue") attrs Sample.options Sample.nothing
     = (Return (moduleText (lit "'{}'")), Sample.nothing).
Proof. split; [now eexists|]. vm_compute. reflexivity. Qed.

(** C8, amended: the lazy path is taken exactly when the parsed [lazy]
    value is truthy, that is a non-empty string or an array (a repeated
    parameter); an absent parameter and one with an empty value take the
    eager path of sanitizing and serializing. *)
Theorem lazy_path_iff_truthy
    (source : source) (resourcePath : jsstring) (attrs : ParsedUrlQuery)
    (options : VueI18nLoaderOptions) (w : world) (data : jsstring) (parsed : json) :
  convert source (attrs !! lit "lang") = Return data ->
  JSON_parse data = Return parsed ->
  (truthyAttr (attrs !! lit "lazy") = true <->
   (exists s, attrs !! lit "lazy" = Some (QString s) /\ s <> [])
   \/ (exists l, attrs !! lit "lazy" = Some (QArray l)))
  /\ (truthyAttr (attrs !! lit "lazy") = true ->
      generateCode source resourcePath attrs options w
      = (stringifyLazyMessages resourcePath (withLocale attrs parsed) options
         ≫= fun messagesString => mret (moduleText messagesString)) w)
  /\ (truthyAttr (attrs !! lit "lazy") = false ->
      generateCode source resourcePath attrs options w
      = (Return (moduleText (stringifyMessages (withLocale attrs parsed))), w)).
Proof.
  intros Hc Hp. split; [|split].
  - destruct (attrs !! lit "lazy") as [[[|c s]|l]|]; cbn; split;
      try discriminate; try reflexivity.
    + intros [(s & [= <-] & Hs)|(l & [=])]. now destruct Hs.
    + intros _. left. now exists (c :: s).
    + intros _. right. now exists l.
    + intros [(s & [=] & _)|(l & [=])].
  - intros Hl. now rewrite (generateCode_converted _ _ _ _ _ _ _ Hc Hp), Hl.
  - intros Hl. exact (generateCode_eager _ _ _ _ _ _ _ Hc Hp Hl).
Qed.

End Generate.

(** ** Transform Entry Point *)

Section EntryPoint.

Context {E : Externals}.

Lemma versionSupported_false version :
  version = None \/ (exists v, version = Some v /\ (v < 2)%Z) ->
  versionSupported version = false.
Proof.
  intros [->|(v & -> & Hv)]; [reflexivity|].
  cbn. apply andb_false_iff. right. now apply Z.leb_gt.
Qed.

(** C7: under a host whose version is absent or below 2 the loader emits
    the capability message, hands an error with that message to the
    callback, and does nothing else: the resource, the converter and the
    world are not touched, whatever they are. *)
Theorem unsupported_host_aborts
    (this : loaderContext) (source : source)
    (sourceMap : option RawSourceMap) (w : world) :
  version this = None \/ (exists v, version this = Some v /\ (v < 2)%Z) ->
  loader this source sourceMap w
  = ([EmitError capabilityMessage;
      Callback (Some (Error capabilityMessage)) None None], w).
Proof.
  intros H. unfold loader. now rewrite (versionSupported_false _ H).
Qed.

(** Under a supported host the configuration error of the lazy path is
    reported the same two ways, after the cacheable mark. *)
Lemma loader_lazy_without_options this source sourceMap w data parsed :
  versionSupported (version this) = true ->
  lacksLazyOptions (query this) = true ->
  truthyAttr (querystring_parse (resourceQuery this) !! lit "lazy") = true ->
  convert source (querystring_parse (resourceQuery this) !! lit "lang")
  = Return data ->
  JSON_parse data = Return parsed ->
  loader this source sourceMap w
  = ((if cacheable this then [Cacheable] else [])
     ++ [EmitError (message configurationError);
         Callback (Some configurationError) None None], w).
Proof.
  intros Hv Ho Hl Hc Hp. unfold loader. rewrite Hv.
  rewrite (generateCode_converted _ _ _ _ _ _ _ Hc Hp), Hl, run_bind.
  now rewrite stringifyLazyMessages_throws.
Qed.

End EntryPoint.

(** ** Code Emitter *)

Section Emitter.

Context {E : Externals} {entry ctor : Type}.

(** C9: the module is always the same text around the entry, which is
    spliced as it is; [generateCode] returns nothing but such a module.
    Its function makes sure the [__i18n] array exists, pushes the entry
    at its end and deletes [_Ctor]: applied twice it has pushed twice,
    and the array is two longer. *)
Theorem emitted_module_installs
    (messagesString : jsstring) (e1 e2 : entry)
    (component : componentOptions entry ctor) :
  moduleText messagesString
  = (lit "module.exports = function (Component) {" ++ [LF]
     ++ lit "  Component.options.__i18n = Component.options.__i18n || []" ++ [LF]
     ++ lit "  Component.options.__i18n.push(")
    ++ messagesString
    ++ (lit ")" ++ [LF]
        ++ lit "  delete Component.options._Ctor" ++ [LF]
        ++ lit "}" ++ [LF])
  /\ (forall source resourcePath attrs options w code w',
        generateCode source resourcePath attrs options w = (Return code, w') ->
        exists spliced, code = moduleText spliced)
  /\ __i18n _ _ (installMessages _ _ e1 component)
     = Some (default [] (__i18n _ _ component) ++ [e1])
  /\ _Ctor _ _ (installMessages _ _ e1 component) = None
  /\ __i18n _ _ (installMessages _ _ e2 (installMessages _ _ e1 component))
     = Some (default [] (__i18n _ _ component) ++ [e1; e2])
  /\ length (default [] (__i18n _ _
               (installMessages _ _ e2 (installMessages _ _ e1 component))))
     = (length (default [] (__i18n _ _ component)) + 2)%nat.
Proof.
  split.
  { unfold moduleText. now rewrite <- !app_assoc. }
  split.
  { intros source resourcePath attrs options w code w'.
    apply generateCode_moduleText. }
  split; [reflexivity|]. split; [reflexivity|].
  cbn. rewrite <- app_assoc. split; [reflexivity|].
  rewrite length_app. reflexivity.
Qed.

End Emitter.

(** ** The theorems at work on the examples *)

Lemma sanitize_roundtrip_witness :
  noLineBreak Sample.text = true
  /\ noSeparator Sample.text = true
  /\ evalLiteral (cleanMessagesString Sample.text) = Some Sample.text.
Proof.
  split; [reflexivity|]. split; [reflexivity|].
  exact (proj2 (proj2 (sanitize_roundtrip Sample.text eq_refl)) eq_refl).
Defined.

Lemma sanitize_order_witness :
  noSeparator (lit "it's C:\dir") = true
  /\ cleanMessagesString (lit "it's C:\dir") = escapeOnce (lit "it's C:\dir").
Proof.
  split; [reflexivity|].
  destruct (sanitize_order (lit "it's C:\dir")) as (_ & _ & _ & _ & _ & _ & H & _).
  exact (H eq_refl).
Defined.



Lemma convert_dispatch_witness :
  let lang := Some (QString (lit "toml")) in
  eqb (attrString lang) (lit "yaml") || eqb (attrString lang) (lit "yml")
  || eqb (attrString lang) (lit "json5") = false
  /\ convert (E := Sample.externals) (SourceString (lit "a = 1")) lang
     = Return (lit "a = 1").
Proof.
  cbv zeta. split; [reflexivity|].
  destruct (convert_dispatch (E := Sample.externals) (SourceString (lit "a = 1"))
              (Some (QString (lit "toml"))) Sample.nothing)
    as (_ & _ & _ & H & _).
  exact (H eq_refl).
Defined.

Lemma locale_override_wraps_witness :
  let attrs : ParsedUrlQuery := {[ lit "locale" := QString (lit "en") ]} in
  nonEmpty (lit "en") = true
  /\ attrs !! lit "locale" = Some (QString (lit "en"))
  /\ withLocale attrs Sample.hello = JObject [(lit "en", Sample.hello)].
Proof.
  intros attrs.
  assert (Hn : nonEmpty (lit "en") = true) by reflexivity.
  assert (Ha : attrs !! lit "locale" = Some (QString (lit "en"))) by reflexivity.
  split; [exact Hn|]. split; [exact Ha|].
  exact (proj1 (locale_override_wraps (E := Sample.externals) attrs Sample.hello
                  (lit "en") Hn eq_refl) Ha).
Defined.

Lemma unsupported_host_aborts_witness :
  let this := {| version := Some 1%Z; cacheable := true;
                 resourcePath := lit "/src/App.vue";
                 resourceQuery := Sample.query;
                 query := Sample.options |} in
  (version this = None \/ exists v, version this = Some v /\ (v < 2)%Z)
  /\ loader (E := Sample.externals) this
       (SourceString (Sample.stringify (JObject Sample.table))) None Sample.nothing
     = ([EmitError capabilityMessage;
         Callback (Some (Error capabilityMessage)) None None], Sample.nothing).
Proof.
  intros this.
  assert (H : version this = None
              \/ exists v, version this = Some v /\ (v < 2)%Z).
  { right. exists 1%Z. split; reflexivity. }
  split; [exact H|].
  exact (unsupported_host_aborts (E := Sample.externals) this _ None
           Sample.nothing H).
Defined.

Lemma lazy_path_iff_truthy_witness :
  let attrs : ParsedUrlQuery := {[ lit "lazy" := QString (lit "true") ]} in
  convert (E := Sample.externals) (SourceString (lit "{}")) (attrs !! lit "lang")
  = Return (lit "{}")
  /\ JSON_parse (Externals := Sample.externals) (lit "{}") = Return (JObject [])
  /\ truthyAttr (attrs !! lit "lazy") = true
  /\ generateCode (E := Sample.externals) (SourceString (lit "{}"))
       (lit "/src/App.vue") attrs Sample.options Sample.nothing
     = (stringifyLazyMessages (E := Sample.externals) (lit "/src/App.vue")
          (withLocale attrs (JObject [])) Sample.options
        ≫= fun messagesString => mret (moduleText messagesString)) Sample.nothing.
Proof.
  intros attrs.
  assert (Hc : convert (E := Sample.externals) (SourceString (lit "{}"))
                 (attrs !! lit "lang") = Return (lit "{}")) by reflexivity.
  assert (Hp : JSON_parse (Externals := Sample.externals) (lit "{}")
               = Return (JObject [])) by reflexivity.
  assert (Hl : truthyAttr (attrs !! lit "lazy") = true) by reflexivity.
  split; [exact Hc|]. split; [exact Hp|]. split; [exact Hl|].
  destruct (lazy_path_iff_truthy (E := Sample.externals)
              (SourceString (lit "{}")) (lit "/src/App.vue") attrs Sample.options
              Sample.nothing (lit "{}") (JObject []) Hc Hp)
    as (_ & H & _).
  exact (H Hl).
Defined.

Lemma emitted_module_installs_witness :
  generateCode (E := Sample.externals) (SourceString (lit "{}"))
    (lit "/src/App.vue") ∅ Sample.options Sample.nothing
  = (Return (moduleText (lit "'{}'")), Sample.nothing)
  /\ exists spliced, moduleText (lit "'{}'") = moduleText spliced.
Proof.
  assert (Hg : generateCode (E := Sample.externals) (SourceString (lit "{}"))
                 (lit "/src/App.vue") ∅ Sample.options Sample.nothing
               = (Return (moduleText (lit "'{}'")), Sample.nothing))
    by (vm_compute; reflexivity).
  split; [exact Hg|].
  destruct (emitted_module_installs (E := Sample.externals)
              (entry := jsstring) (ctor := unit) [] [] []
              {| __i18n := None; _Ctor := None |})
    as (_ & H & _).
  exact (H _ _ _ _ _ _ _ Hg).
Defined.

Lemma locale_wrap_needs_truthy_string_witness :
  let attrs : ParsedUrlQuery := {[ lit "locale" := QArray [lit "en"; lit "fr"] ]} in
  (attrs !! lit "locale" = None
   \/ attrs !! lit "locale" = Some (QString [])
   \/ exists l, attrs !! lit "locale" = Some (QArray l))
  /\ withLocale attrs Sample.hello = Sample.hello.
Proof.
  intros attrs.
  assert (H : attrs !! lit "locale" = None
              \/ attrs !! lit "locale" = Some (QString [])
              \/ exists l, attrs !! lit "locale" = Some (QArray l)).
  { right. right. eexists. reflexivity. }
  split; [exact H|].
  exact (proj1 (locale_wrap_needs_truthy_string attrs Sample.hello) H).
Defined.

(** ** More on the file name of the fragments (lines 100-101) *)

Section Filename.

Lemma matchFilename_skip pre sep rest candidate acc :
  noQuestion pre = true -> isSeparator sep = true ->
  matchFilename candidate acc (pre ++ sep :: rest) = matchFilename true [] rest.
Proof.
  intros Hpre Hsep. revert candidate acc.
  induction pre as [|c pre IH]; intros candidate acc.
  - cbn. now rewrite Hsep.
  - cbn [noQuestion forallb] in Hpre.
    apply andb_true_iff in Hpre as [Hc Hpre]. apply negb_true_iff in Hc.
    cbn [app matchFilename]. rewrite Hc.
    destruct (isSeparator c); [now apply IH|].
    destruct candidate; now apply IH.
Qed.

Lemma matchFilename_segment name acc rest :
  segmentText name = true ->
  matchFilename true acc (name ++ rest) = matchFilename true (rev name ++ acc) rest.
Proof.
  revert acc. induction name as [|c name IH]; intros acc Hname; [reflexivity|].
  cbn [segmentText forallb] in Hname.
  apply andb_true_iff in Hname as [Hc Hname].
  apply andb_true_iff in Hc as [Hs Hq]. apply negb_true_iff in Hs, Hq.
  cbn [app matchFilename]. rewrite Hs, Hq, (IH _ Hname).
  cbn [rev]. now rewrite <- app_assoc.
Qed.

Lemma matchFilename_name name rest :
  segmentText name = true -> nonEmpty name = true ->
  rest = [] \/ (exists query, rest = QUESTION :: query) ->
  matchFilename true [] (name ++ rest) = Some name.
Proof.
  intros Hseg Hne Hrest. rewrite matchFilename_segment by assumption.
  rewrite app_nil_r.
  assert (Hrev : nonEmpty (rev name) = true).
  { destruct name as [|c name]; [discriminate|].
    cbn [rev]. now destruct (rev name). }
  destruct Hrest as [->|[query ->]]; cbn; rewrite Hrev; cbn;
    now rewrite rev_involutive.
Qed.

(** The file name of a resource path is its last segment, up to the
    question mark that may follow it: for a name that holds neither
    separator nor question mark, alone or after a directory part without
    question mark and a slash or a backslash. *)
Theorem filename_of_path (dir name query : jsstring) (sep : N) :
  noQuestion dir = true -> isSeparator sep = true ->
  segmentText name = true -> nonEmpty name = true ->
  matchFilename true [] name = Some name
  /\ matchFilename true [] (name ++ QUESTION :: query) = Some name
  /\ matchFilename true [] (dir ++ sep :: name) = Some name
  /\ matchFilename true [] (dir ++ sep :: name ++ QUESTION :: query) = Some name.
Proof.
  intros Hdir Hsep Hseg Hne. split; [|split; [|split]].
  - rewrite <- (app_nil_r name) at 1. apply matchFilename_name; auto.
  - apply matchFilename_name; eauto.
  - rewrite matchFilename_skip by assumption.
    rewrite <- (app_nil_r name) at 1. apply matchFilename_name; auto.
  - rewrite matchFilename_skip by assumption.
    apply matchFilename_name; eauto.
Qed.

Context {E : Externals}.

(** A path without question mark that is empty or ends with a separator
    has no file name: the fragments are then named after [locale.json]. *)
Theorem filename_default
    (dir : jsstring) (sep : N) (messages : json)
    (options : VueI18nLoaderOptions) (w : world) :
  noQuestion dir = true -> isSeparator sep = true ->
  matchFilename true [] (dir ++ [sep]) = None
  /\ stringifyLazyMessages (dir ++ [sep]) messages options w
     = (required ← generateDynamicRequireString (lit "locale.json") messages options;
        mret (lit "JSON.stringify(" ++ required ++ lit ")")) w
  /\ stringifyLazyMessages [] messages options w
     = (required ← generateDynamicRequireString (lit "locale.json") messages options;
        mret (lit "JSON.stringify(" ++ required ++ lit ")")) w.
Proof.
  intros Hdir Hsep.
  assert (H : matchFilename true [] (dir ++ [sep]) = None)
    by now rewrite matchFilename_skip.
  split; [exact H|]. split; [|reflexivity].
  unfold stringifyLazyMessages. now rewrite H.
Qed.

Lemma matchFilename_result path candidate acc name :
  segmentText acc = true ->
  matchFilename candidate acc path = Some name ->
  nonEmpty name = true /\ segmentText name = true.
Proof.
  revert candidate acc. induction path as [|c path IH]; intros candidate acc Hacc.
  - cbn. destruct (candidate && nonEmpty acc) eqn:Hc; [|discriminate].
    intros [= <-]. apply andb_true_iff in Hc as [_ Hne]. split.
    + destruct acc as [|a acc]; [discriminate|].
      cbn [rev]. now destruct (rev acc).
    + unfold segmentText in *. rewrite forallb_forall in *.
      intros x Hx. apply Hacc. now apply in_rev.
  - cbn [matchFilename].
    destruct (isSeparator c) eqn:Hs; [now apply IH|].
    destruct (c =? QUESTION) eqn:Hq.
    + destruct (candidate && nonEmpty acc) eqn:Hc; [|now apply IH].
      intros [= <-]. apply andb_true_iff in Hc as [_ Hne]. split.
      * destruct acc as [|a acc]; [discriminate|].
        cbn [rev]. now destruct (rev acc).
      * unfold segmentText in *. rewrite forallb_forall in *.
        intros x Hx. apply Hacc. now apply in_rev.
    + destruct candidate; [|now apply IH].
      apply IH. cbn [segmentText forallb]. now rewrite Hs, Hq.
Qed.

(** Whatever the resource path, the file name the fragments are named
    after is not empty and holds neither slash, backslash nor question
    mark: the fragments stay directly inside the scratch directory. *)
Theorem filename_is_segment (path : jsstring) :
  let filename := default (lit "locale.json") (matchFilename true [] path) in
  nonEmpty filename = true /\ segmentText filename = true.
Proof.
  cbv zeta. destruct (matchFilename true [] path) as [name|] eqn:H.
  - now apply (matchFilename_result path true [] name).
  - split; reflexivity.
Qed.

End Filename.

(** ** More on the sanitizer (lines 87-93) *)

Section SanitizerMore.

Lemma cleanMessagesString_app s t :
  cleanMessagesString (s ++ t) = cleanMessagesString s ++ cleanMessagesString t.
Proof. rewrite !cleanMessagesString_units. apply flat_map_app. Qed.

Lemma noDelimiter_app s t :
  noDelimiter (s ++ t) = noDelimiter s && noDelimiter t.
Proof. unfold noDelimiter. apply forallb_app. Qed.

Lemma noDelimiter_cleanUnit c : noDelimiter (cleanUnit c) = true.
Proof.
  unfold cleanUnit.
  destruct (c =? LS) eqn:HLS; [reflexivity|].
  destruct (c =? PS) eqn:HPS; [reflexivity|].
  destruct (c =? BACKSLASH) eqn:HB; [reflexivity|].
  destruct (c =? QUOTE) eqn:HQ; [reflexivity|].
  cbn. now rewrite HQ, HLS, HPS.
Qed.

Lemma sanitize_output_has_no_delimiter_aux s :
  noDelimiter (cleanMessagesString s) = true.
Proof.
  rewrite cleanMessagesString_units.
  induction s as [|c s IH]; [reflexivity|].
  cbn [flat_map]. now rewrite noDelimiter_app, noDelimiter_cleanUnit, IH.
Qed.

(** The sanitized text never holds a single quote, U+2028 or U+2029:
    nothing in it can end the literal it is put in, whatever the input;
    and the literal [stringifyMessages] makes is that text between two
    single quotes. *)
Theorem sanitize_output_has_no_delimiter `{Externals} (s : jsstring) (messages : json) :
  noDelimiter (cleanMessagesString s) = true
  /\ exists body,
       stringifyMessages messages = [QUOTE] ++ body ++ [QUOTE]
       /\ noDelimiter body = true.
Proof.
  split; [apply sanitize_output_has_no_delimiter_aux|].
  eexists. split; [reflexivity|]. apply sanitize_output_has_no_delimiter_aux.
Qed.

(** The sanitizer works piece by piece and leaves alone a text that holds
    none of the four code units it escapes. *)
Theorem sanitize_pieces (s t : jsstring) :
  cleanMessagesString (s ++ t) = cleanMessagesString s ++ cleanMessagesString t
  /\ (nothingToEscape s = true -> cleanMessagesString s = s).
Proof.
  split; [apply cleanMessagesString_app|].
  rewrite cleanMessagesString_units.
  induction s as [|c s IH]; [reflexivity|].
  cbn [nothingToEscape forallb]. rewrite !andb_true_iff, !negb_true_iff.
  intros [[[[HLS HPS] HB] HQ] Hs].
  cbn [flat_map]. rewrite (IH Hs). unfold cleanUnit.
  now rewrite HLS, HPS, HB, HQ.
Qed.

(** The sanitizer does not tell a raw separator from its escape sequence
    already written out: both come out as the sequence with its backslash
    doubled, so that two different texts can give the same literal. *)
Theorem sanitize_separator_collision (s t : jsstring) :
  cleanMessagesString (s ++ [LS] ++ t) = cleanMessagesString (s ++ escLS ++ t)
  /\ cleanMessagesString (s ++ [PS] ++ t) = cleanMessagesString (s ++ escPS ++ t)
  /\ s ++ [LS] ++ t <> s ++ escLS ++ t
  /\ s ++ [PS] ++ t <> s ++ escPS ++ t.
Proof.
  rewrite !cleanMessagesString_app.
  repeat split; try reflexivity.
  - intros H. apply app_inv_head in H. discriminate.
  - intros H. apply app_inv_head in H. discriminate.
Qed.

End SanitizerMore.

(** ** More on the materializer (lines 109-136) *)

Section MaterializerMore.

Context {E : Externals}.

Lemma lacksLazyOptions_iff options :
  lacksLazyOptions options = true
  <-> locales options = None \/ fallbackLocale options = None
      \/ fallbackLocale options = Some [].
Proof.
  unfold lacksLazyOptions.
  destruct (locales options) as [ls|], (fallbackLocale options) as [[|c fb]|];
    cbn; split; intros H; try reflexivity; try discriminate; auto.
  destruct H as [H|[H|H]]; discriminate.
Qed.

Lemma generateDynamicRequireString_runs filename messages options w :
  lacksLazyOptions options = false ->
  generateDynamicRequireString filename messages options w
  = (_ ← mapM (writeLocale (tmp_name (scratchDirs w)) filename messages options)
              (default [] (locales options));
     mret (lit "require('" ++ tmp_name (scratchDirs w) ++ lit "/" ++ prefix
           ++ lit "' + window.__VUE_I18N_CURRENT_LOCALE__ + '__"
           ++ filename ++ lit "')"))
      (World (scratchDirs w ++ [tmp_name (scratchDirs w)]) (written w)).
Proof.
  intros H. unfold generateDynamicRequireString. rewrite H.
  now rewrite run_bind.
Qed.

(** The configuration error is thrown exactly when [locales] is absent or
    [fallbackLocale] is absent or empty, and then before any effect.  An
    empty array of locales is accepted: a directory is allocated, nothing
    is written and the load expression is returned, whatever the table. *)
Theorem lazy_guard_exact
    (filename : jsstring) (messages : json)
    (options : VueI18nLoaderOptions) (fallback : jsstring) (w : world) :
  (lacksLazyOptions options = true
   <-> locales options = None \/ fallbackLocale options = None
       \/ fallbackLocale options = Some [])
  /\ (lacksLazyOptions options = true ->
      generateDynamicRequireString filename messages options w
      = (Throw configurationError, w))
  /\ (nonEmpty fallback = true ->
      generateDynamicRequireString filename messages
        {| locales := Some []; fallbackLocale := Some fallback |} w
      = (Return (lit "require('" ++ tmp_name (scratchDirs w)
                 ++ lit "/__vue-i18n__"
                 ++ lit "' + window.__VUE_I18N_CURRENT_LOCALE__ + '__"
                 ++ filename ++ lit "')"),
         World (scratchDirs w ++ [tmp_name (scratchDirs w)]) (written w))).
Proof.
  split; [apply lacksLazyOptions_iff|]. split.
  - apply generateDynamicRequireString_throws.
  - intros Hfb. rewrite generateDynamicRequireString_runs
      by now apply lacksLazyOptions_false.
    reflexivity.
Qed.

(** Over the table [null], with options in order and a locale to write,
    the materializer throws the engine's TypeError for the read of the
    fallback locale: the scratch directory is allocated already, no file
    is written. *)
Theorem lazy_null_table
    (filename fallback locale : jsstring) (others : list jsstring) (w : world) :
  nonEmpty fallback = true ->
  generateDynamicRequireString filename JNull
    {| locales := Some (locale :: others); fallbackLocale := Some fallback |} w
  = (Throw (Error (nullReadMessage fallback)),
     World (scratchDirs w ++ [tmp_name (scratchDirs w)]) (written w)).
Proof.
  intros Hfb. rewrite generateDynamicRequireString_runs
    by now apply lacksLazyOptions_false.
  reflexivity.
Qed.

(** The writes of the loop, whatever the table: they stop at the first
    read that throws, append to the log, and go to the paths of requested
    locales inside the directory. *)
Lemma mapM_writeLocale_appends dir filename messages options requested w :
  exists r files,
    mapM (writeLocale dir filename messages options) requested w
    = (r, World (scratchDirs w) (written w ++ files))
    /\ Forall (fun file => exists locale,
                 locale ∈ requested
                 /\ fst file = dir ++ lit "/__vue-i18n__" ++ locale
                               ++ lit "__" ++ filename) files.
Proof.
  revert w. induction requested as [|locale requested IH]; intros w.
  - exists (Return []), []. cbn. rewrite app_nil_r. now destruct w.
  - cbn [mapM]. rewrite run_bind. unfold writeLocale at 1.
    rewrite run_lift_bind.
    destruct (getProp messages (default [] (fallbackLocale options))) as [base|e].
    2:{ exists (Throw e), []. rewrite app_nil_r. now destruct w. }
    rewrite run_lift_bind.
    destruct (getProp messages locale) as [override|e].
    2:{ exists (Throw e), []. rewrite app_nil_r. now destruct w. }
    cbn [writeFileSync]. rewrite run_bind.
    destruct (IH (World (scratchDirs w)
                    (written w ++
                     [(dir ++ lit "/" ++ prefix ++ locale ++ lit "__" ++ filename,
                       JSON_stringify (localeSpecificMessages base override locale)
                         (IndentNumber 2))])))
      as (r & files & Hrun & Hfiles).
    rewrite Hrun. cbn [scratchDirs written]. rewrite <- app_assoc.
    exists (match r with Return units => Return (tt :: units) | Throw e => Throw e end),
      ((dir ++ lit "/" ++ prefix ++ locale ++ lit "__" ++ filename,
        JSON_stringify (localeSpecificMessages base override locale)
          (IndentNumber 2)) :: files).
    split.
    + destruct r as [units|e]; reflexivity.
    + constructor.
      * exists locale. split; [left|reflexivity].
      * eapply Forall_impl; [exact Hfiles|].
        intros file (l & Hl & Hp). exists l. split; [now right|exact Hp].
Qed.

(** Whatever the table and the options, one run of the materializer only
    appends to the world: at most one directory, the one [tmp] names, and
    files whose paths are those of requested locales inside it; without
    the directory nothing is written. *)
Theorem materializer_only_appends
    (filename : jsstring) (messages : json)
    (options : VueI18nLoaderOptions) (w : world) :
  exists r dirs files,
    generateDynamicRequireString filename messages options w
    = (r, World (scratchDirs w ++ dirs) (written w ++ files))
    /\ (dirs = [] /\ files = [] \/ dirs = [tmp_name (scratchDirs w)])
    /\ Forall (fun file => exists locale,
                 locale ∈ default [] (locales options)
                 /\ fst file = tmp_name (scratchDirs w) ++ lit "/__vue-i18n__"
                               ++ locale ++ lit "__" ++ filename) files.
Proof.
  destruct (lacksLazyOptions options) eqn:Ho.
  - exists (Throw configurationError), [], [].
    rewrite generateDynamicRequireString_throws by assumption.
    rewrite !app_nil_r. split; [now destruct w|]. split; [now left|constructor].
  - rewrite generateDynamicRequireString_runs by assumption.
    rewrite run_bind.
    destruct (mapM_writeLocale_appends (tmp_name (scratchDirs w)) filename
                messages options (default [] (locales options))
                (World (scratchDirs w ++ [tmp_name (scratchDirs w)]) (written w)))
      as (r & files & Hrun & Hfiles).
    rewrite Hrun. cbn [scratchDirs written].
    exists (match r with
            | Return _ =>
              Return (lit "require('" ++ tmp_name (scratchDirs w) ++ lit "/" ++ prefix
                      ++ lit "' + window.__VUE_I18N_CURRENT_LOCALE__ + '__"
                      ++ filename ++ lit "')")
            | Throw e => Throw e
            end), [tmp_name (scratchDirs w)], files.
    split.
    + destruct r as [units|e]; reflexivity.
    + split; [now right|exact Hfiles].
Qed.

(** A locale whose entry in the table has no property to copy ([null], a
    boolean, a number, an empty string, array or object) gets the same
    fragment as a locale without entry: the fallback's messages alone. *)
Theorem scalar_override_is_fallback
    (base : option json) (override : json) (locale : jsstring) :
  Obj.ownProps override = [] ->
  localeSpecificMessages base (Some override) locale
  = localeSpecificMessages base None locale.
Proof.
  intros H. unfold localeSpecificMessages, Obj.assign.
  do 3 f_equal. cbn [Obj.orEmpty].
  destruct (Obj.truthy override); [|reflexivity]. now rewrite H.
Qed.

Lemma readFile_app path (earlier later : list (jsstring * jsstring)) :
  readFile path (earlier ++ later)
  = match readFile path later with
    | Some content => Some content
    | None => readFile path earlier
    end.
Proof.
  induction earlier as [|[p content] earlier IH]; cbn.
  - now destruct (readFile path later).
  - rewrite IH. now destruct (readFile path later).
Qed.

Lemma readFile_only (pathOf contentOf : jsstring -> jsstring) x ys content :
  (forall y, pathOf y = pathOf x -> y = x) ->
  readFile (pathOf x) (List.map (fun y => (pathOf y, contentOf y)) ys) = Some content ->
  content = contentOf x.
Proof.
  intros Hinj. induction ys as [|y ys IH]; cbn; [discriminate|].
  destruct (readFile (pathOf x) _) as [later|]; [intros [= <-]; now apply IH|].
  destruct (eqb (pathOf x) (pathOf y)) eqn:Hp; [|discriminate].
  intros [= <-]. apply eqb_eq in Hp. now rewrite (Hinj y).
Qed.

Lemma readFile_written (pathOf contentOf : jsstring -> jsstring) x ys :
  (forall y, pathOf y = pathOf x -> y = x) ->
  In x ys ->
  readFile (pathOf x) (List.map (fun y => (pathOf y, contentOf y)) ys)
  = Some (contentOf x).
Proof.
  intros Hinj. induction ys as [|y ys IH]; [intros []|].
  intros Hin. cbn.
  destruct (readFile (pathOf x) _) as [later|] eqn:Hr.
  - f_equal. eapply readFile_only; eassumption.
  - destruct Hin as [->|Hin]; [now rewrite eqb_refl|].
    discriminate (IH Hin).
Qed.

Lemma fragment_path_injective (dir filename l1 l2 : jsstring) :
  dir ++ lit "/__vue-i18n__" ++ l1 ++ lit "__" ++ filename
  = dir ++ lit "/__vue-i18n__" ++ l2 ++ lit "__" ++ filename ->
  l1 = l2.
Proof.
  intros H. apply app_inv_head in H. apply app_inv_head in H.
  now apply app_inv_tail in H.
Qed.

Lemma generateDynamicRequireString_object filename (table : props) requested
    fallback w :
  nonEmpty fallback = true ->
  generateDynamicRequireString filename (JObject table)
    {| locales := Some requested; fallbackLocale := Some fallback |} w
  = (Return (lit "require('" ++ (tmp_name (scratchDirs w) ++ lit "/__vue-i18n__")
             ++ lit "' + window.__VUE_I18N_CURRENT_LOCALE__ + '"
             ++ (lit "__" ++ filename) ++ lit "')"),
     World (scratchDirs w ++ [tmp_name (scratchDirs w)])
       (written w ++
        List.map (fun l =>
                    (tmp_name (scratchDirs w) ++ lit "/__vue-i18n__" ++ l
                     ++ lit "__" ++ filename,
                     JSON_stringify
                       (localeSpecificMessages (Obj.get fallback table)
                          (Obj.get l table) l) (IndentNumber 2))) requested)).
Proof.
  intros Hfb. rewrite generateDynamicRequireString_runs
    by now apply lacksLazyOptions_false.
  rewrite run_bind, mapM_writeLocale. unfold mret, io_ret.
  cbn [scratchDirs written default locales fallbackLocale].
  f_equal. f_equal. unfold prefix. now rewrite <- !app_assoc.
Qed.

(** After a run over an object table, the file of every requested locale
    holds that locale's fragment, whatever the world held before and even
    when a locale is requested twice: two locales never share a path. *)
Theorem fragments_read_back
    (filename : jsstring) (table : props) (requested : list jsstring)
    (fallback locale : jsstring) (w : world) :
  nonEmpty fallback = true ->
  In locale requested ->
  let options := {| locales := Some requested; fallbackLocale := Some fallback |} in
  let dir := tmp_name (scratchDirs w) in
  readFile (dir ++ lit "/__vue-i18n__" ++ locale ++ lit "__" ++ filename)
    (written (snd (generateDynamicRequireString filename (JObject table) options w)))
  = Some (JSON_stringify
            (localeSpecificMessages (Obj.get fallback table)
               (Obj.get locale table) locale)
            (IndentNumber 2))
  /\ forall other,
       dir ++ lit "/__vue-i18n__" ++ other ++ lit "__" ++ filename
       = dir ++ lit "/__vue-i18n__" ++ locale ++ lit "__" ++ filename ->
       other = locale.
Proof.
  intros Hfb Hin options dir. split; [|intros other; apply fragment_path_injective].
  unfold options. rewrite generateDynamicRequireString_object by assumption.
  cbn [snd written]. fold dir. rewrite readFile_app.
  rewrite (readFile_written
             (fun l => dir ++ lit "/__vue-i18n__" ++ l ++ lit "__" ++ filename)
             (fun l => JSON_stringify
                         (localeSpecificMessages (Obj.get fallback table)
                            (Obj.get l table) l) (IndentNumber 2))
             locale requested); [reflexivity| |assumption].
  intros y. apply fragment_path_injective.
Qed.

Lemma plainText_app s t : plainText (s ++ t) = plainText s && plainText t.
Proof. unfold plainText. apply forallb_app. Qed.

Lemma evalLiteral_plain s : plainText s = true -> evalLiteral s = Some s.
Proof.
  induction s as [|c s IH]; [reflexivity|].
  cbn [plainText forallb]. rewrite !andb_true_iff, !negb_true_iff.
  intros [[[HB HQ] HT] Hs].
  cbn [evalLiteral]. now rewrite HB, HQ, HT, (IH Hs).
Qed.

(** When neither the directory name nor the file name holds a backslash,
    a single quote or a line terminator, the two literals of the load
    expression evaluate to the texts spliced into them, so that, with the
    global set to a requested locale, the expression loads that locale's
    fragment. *)
Theorem load_expression_resolves
    (filename : jsstring) (table : props) (requested : list jsstring)
    (fallback : jsstring) (w : world) :
  plainText (tmp_name (scratchDirs w)) = true ->
  plainText filename = true ->
  nonEmpty fallback = true ->
  let options := {| locales := Some requested; fallbackLocale := Some fallback |} in
  let before := tmp_name (scratchDirs w) ++ lit "/__vue-i18n__" in
  let after := lit "__" ++ filename in
  let run := generateDynamicRequireString filename (JObject table) options w in
  fst run
  = Return (lit "require('" ++ before
            ++ lit "' + window.__VUE_I18N_CURRENT_LOCALE__ + '"
            ++ after ++ lit "')")
  /\ evalLiteral before = Some before
  /\ evalLiteral after = Some after
  /\ forall locale, In locale requested ->
       readFile (before ++ locale ++ after) (written (snd run))
       = Some (JSON_stringify
                 (localeSpecificMessages (Obj.get fallback table)
                    (Obj.get locale table) locale)
                 (IndentNumber 2)).
Proof.
  intros Hdir Hname Hfb options before after run.
  unfold run, options. rewrite generateDynamicRequireString_object by assumption.
  cbn [fst snd written]. split; [reflexivity|]. split; [|split].
  - apply evalLiteral_plain. unfold before. rewrite plainText_app, Hdir.
    reflexivity.
  - apply evalLiteral_plain. unfold after. rewrite plainText_app, Hname.
    reflexivity.
  - intros locale Hin. unfold before, after. rewrite <- !app_assoc.
    rewrite readFile_app.
    rewrite (readFile_written
               (fun l => tmp_name (scratchDirs w) ++ lit "/__vue-i18n__" ++ l
                         ++ lit "__" ++ filename)
               (fun l => JSON_stringify
                           (localeSpecificMessages (Obj.get fallback table)
                              (Obj.get l table) l) (IndentNumber 2))
               locale requested); [reflexivity| |assumption].
    intros y. apply fragment_path_injective.
Qed.

End MaterializerMore.

(** ** More on the merge (lines 125-132) *)

Section MergeMore.

Lemma get_copy_object k (o : props) :
  distinctKeys o = true ->
  Obj.get k (Obj.assign [] (Some (JObject o))) = Obj.get k o.
Proof.
  unfold Obj.assign. cbn [Obj.ownProps].
  induction o as [|[k1 v1] o IH]; [reflexivity|].
  cbn [distinctKeys]. destruct (Obj.get k1 o) eqn:Hk1; [discriminate|].
  intros Hd. cbn [fold_left fst snd]. rewrite get_copy, (IH Hd). cbn.
  destruct (eqb k k1) eqn:E1.
  - apply eqb_eq in E1 as ->. now rewrite Hk1.
  - now destruct (Obj.get k o).
Qed.

(** When the fallback's and the locale's entries are objects, a key of
    the fragment reads as the locale's message if the locale has that
    key, and as the fallback's otherwise: the merge is one level deep, a
    nested object of the locale replaces the fallback's as a whole. *)
Theorem merged_lookup_objects (base override : props) (locale : jsstring) :
  distinctKeys base = true -> distinctKeys override = true ->
  exists merged,
    localeSpecificMessages (Some (JObject base)) (Some (JObject override)) locale
    = JObject [(locale, JObject merged)]
    /\ forall key,
         Obj.get key merged
         = match Obj.get key override with
           | Some message => Some message
           | None => Obj.get key base
           end.
Proof.
  intros Hb Ho. eexists. split; [reflexivity|].
  intros key. rewrite get_assign. cbn [Obj.orEmpty Obj.truthy].
  now rewrite !get_copy_object.
Qed.

End MergeMore.

(** ** More on the converter, the generator and the entry point *)

Section PipelineMore.

Context {E : Externals}.

Lemma generateCode_convert_throws source resourcePath attrs options w e :
  convert source (attrs !! lit "lang") = Throw e ->
  generateCode source resourcePath attrs options w = (Throw e, w).
Proof. intros H. unfold generateCode. now rewrite run_lift_bind, H. Qed.

Lemma generateCode_parse_throws source resourcePath attrs options w data e :
  convert source (attrs !! lit "lang") = Return data ->
  JSON_parse data = Throw e ->
  generateCode source resourcePath attrs options w = (Throw e, w).
Proof.
  intros Hc Hp. unfold generateCode.
  now rewrite run_lift_bind, Hc, run_lift_bind, Hp.
Qed.

Lemma generateCode_eager_world source resourcePath attrs options w :
  truthyAttr (attrs !! lit "lazy") = false ->
  snd (generateCode source resourcePath attrs options w) = w.
Proof.
  intros Hl.
  destruct (convert source (attrs !! lit "lang")) as [data|e] eqn:Hc;
    [|now rewrite (generateCode_convert_throws _ _ _ _ _ _ Hc)].
  destruct (JSON_parse data) as [parsed|e] eqn:Hp;
    [|now rewrite (generateCode_parse_throws _ _ _ _ _ _ _ Hc Hp)].
  now rewrite (generateCode_eager _ _ _ _ _ _ _ Hc Hp Hl).
Qed.

(** Without a truthy [lazy] attribute nothing is allocated nor written,
    whether the transform succeeds or fails: the generator and the loader
    hand the world back as they got it. *)
Theorem eager_never_touches_world
    (this : loaderContext) (source : source) (sourceMap : option RawSourceMap)
    (attrs : ParsedUrlQuery) (options : VueI18nLoaderOptions) (w : world) :
  (truthyAttr (attrs !! lit "lazy") = false ->
   snd (generateCode source (resourcePath this) attrs options w) = w)
  /\ (truthyAttr (querystring_parse (resourceQuery this) !! lit "lazy") = false ->
      snd (loader this source sourceMap w) = w).
Proof.
  split; [apply generateCode_eager_world|].
  intros Hl. unfold loader.
  destruct (versionSupported (version this)); [|reflexivity].
  pose proof (generateCode_eager_world source (resourcePath this)
                (querystring_parse (resourceQuery this)) (query this) w Hl) as H.
  destruct (generateCode _ _ _ _ w) as [[code|e] w']; exact H.
Qed.

(** Every run of the loader ends with exactly one call of the callback,
    after at most the cacheable mark: either with the module and the
    source map it was given, or with an error whose message it has just
    emitted.  The host is supported exactly from version 2 on. *)
Theorem loader_reports_once
    (this : loaderContext) (source : source) (sourceMap : option RawSourceMap)
    (w : world) :
  (versionSupported (version this) = true
   <-> exists v, version this = Some v /\ (2 <= v)%Z)
  /\ exists mark,
       (mark = [] \/ mark = [Cacheable] /\ cacheable this = true)
       /\ ((exists code,
              fst (loader this source sourceMap w)
              = mark ++ [Callback None (Some code) sourceMap])
           \/ (exists e,
                 fst (loader this source sourceMap w)
                 = mark ++ [EmitError (message e); Callback (Some e) None None])).
Proof.
  split.
  - unfold versionSupported. destruct (version this) as [v|].
    + rewrite andb_true_iff, negb_true_iff, Z.eqb_neq, Z.leb_le. split.
      * intros [_ H]. now exists v.
      * intros (v' & [= <-] & H). split; [lia|assumption].
    + split; [discriminate|]. now intros (v & [=] & _).
  - unfold loader. destruct (versionSupported (version this)).
    + exists (if cacheable this then [Cacheable] else []). split.
      * destruct (cacheable this); auto.
      * destruct (generateCode _ _ _ _ w) as [[code|e] w']; cbn [fst].
        -- left. now exists code.
        -- right. now exists e.
    + exists []. split; [now left|]. right.
      now exists (Error capabilityMessage).
Qed.

(** Under a supported host, an error of the converter or of [JSON.parse]
    is the error the loader reports: its message is emitted, the error
    itself goes to the callback, and the world is left as it was. *)
Theorem loader_forwards_parser_error
    (this : loaderContext) (source : source) (sourceMap : option RawSourceMap)
    (w : world) (e : error) :
  versionSupported (version this) = true ->
  let attrs := querystring_parse (resourceQuery this) in
  convert source (attrs !! lit "lang") = Throw e
  \/ (exists data, convert source (attrs !! lit "lang") = Return data
                   /\ JSON_parse data = Throw e) ->
  loader this source sourceMap w
  = ((if cacheable this then [Cacheable] else [])
     ++ [EmitError (message e); Callback (Some e) None None], w).
Proof.
  intros Hv attrs H. unfold loader. rewrite Hv. fold attrs.
  destruct H as [Hc|(data & Hc & Hp)].
  - now rewrite (generateCode_convert_throws _ _ _ _ _ _ Hc).
  - now rewrite (generateCode_parse_throws _ _ _ _ _ _ _ Hc Hp).
Qed.

(** The eager transform from end to end: under a supported host, a
    resource that converts and parses is answered with the module that
    pushes one single-quoted literal; when the JSON text of the table has
    no raw line break, the body of that literal holds nothing that ends
    it and evaluates to that JSON text, its separators written as escape
    sequences. *)
Theorem loader_eager_end_to_end
    (this : loaderContext) (source : source) (sourceMap : option RawSourceMap)
    (w : world) (data : jsstring) (parsed : json) :
  versionSupported (version this) = true ->
  let attrs := querystring_parse (resourceQuery this) in
  let text := JSON_stringify (withLocale attrs parsed) NoIndent in
  truthyAttr (attrs !! lit "lazy") = false ->
  convert source (attrs !! lit "lang") = Return data ->
  JSON_parse data = Return parsed ->
  noLineBreak text = true ->
  exists body,
    loader this source sourceMap w
    = ((if cacheable this then [Cacheable] else [])
       ++ [Callback None (Some (moduleText ([QUOTE] ++ body ++ [QUOTE]))) sourceMap],
       w)
    /\ noDelimiter body = true
    /\ evalLiteral body = Some (escapeSeparators text).
Proof.
  intros Hv attrs text Hl Hc Hp Hs.
  exists (cleanMessagesString text). split; [|split].
  - unfold loader. rewrite Hv. fold attrs.
    now rewrite (generateCode_eager _ _ _ _ _ _ _ Hc Hp Hl).
  - apply sanitize_output_has_no_delimiter_aux.
  - now apply evalLiteral_clean.
Qed.

(** The lazy transform from end to end over an object table: the module
    pushes [JSON.stringify] of the load expression, one directory is
    allocated and one fragment is written per requested locale. *)
Theorem generateCode_lazy_end_to_end
    (source : source) (resourcePath : jsstring) (attrs : ParsedUrlQuery)
    (requested : list jsstring) (fallback : jsstring) (w : world)
    (data : jsstring) (parsed : json) (table : props) :
  nonEmpty fallback = true ->
  truthyAttr (attrs !! lit "lazy") = true ->
  convert source (attrs !! lit "lang") = Return data ->
  JSON_parse data = Return parsed ->
  withLocale attrs parsed = JObject table ->
  let dir := tmp_name (scratchDirs w) in
  let filename := default (lit "locale.json") (matchFilename true [] resourcePath) in
  generateCode source resourcePath attrs
    {| locales := Some requested; fallbackLocale := Some fallback |} w
  = (Return (moduleText
               (lit "JSON.stringify(require('" ++ dir ++ lit "/__vue-i18n__"
                ++ lit "' + window.__VUE_I18N_CURRENT_LOCALE__ + '__"
                ++ filename ++ lit "'))")),
     World (scratchDirs w ++ [dir])
       (written w ++
        List.map (fun l =>
                    (dir ++ lit "/__vue-i18n__" ++ l ++ lit "__" ++ filename,
                     JSON_stringify
                       (localeSpecificMessages (Obj.get fallback table)
                          (Obj.get l table) l) (IndentNumber 2))) requested)).
Proof.
  intros Hfb Hl Hc Hp Ht dir filename.
  rewrite (generateCode_converted _ _ _ _ _ _ _ Hc Hp), Hl, Ht.
  rewrite run_bind. unfold stringifyLazyMessages. rewrite run_bind.
  rewrite generateDynamicRequireString_object by assumption.
  unfold mret, io_ret. fold dir filename. f_equal. f_equal. f_equal.
  now rewrite <- !app_assoc.
Qed.

End PipelineMore.

(** ** More on the emitted module at run time (lines 61-65) *)

Section RuntimeMore.

Context {entry ctor : Type}.

Lemma install_fold (entries : list entry) (e : entry)
    (component : componentOptions entry ctor) :
  __i18n _ _ (fold_left (fun c x => installMessages _ _ x c) entries
                (installMessages _ _ e component))
  = Some (default [] (__i18n _ _ component) ++ e :: entries)
  /\ _Ctor _ _ (fold_left (fun c x => installMessages _ _ x c) entries
                  (installMessages _ _ e component)) = None.
Proof.
  revert e component. induction entries as [|x entries IH]; intros e component.
  - now cbn.
  - cbn [fold_left]. destruct (IH x (installMessages _ _ e component)) as [Hi Hc].
    split; [|exact Hc]. rewrite Hi. cbn. now rewrite <- app_assoc.
Qed.

(** The modules of several resources applied to one component in turn
    leave their entries in [__i18n] after those already there, in the
    order of application, and no [_Ctor]. *)
Theorem install_all_in_order
    (entries : list entry) (e : entry) (component : componentOptions entry ctor) :
  let installed :=
    fold_left (fun c x => installMessages _ _ x c) (e :: entries) component in
  __i18n _ _ installed = Some (default [] (__i18n _ _ component) ++ e :: entries)
  /\ _Ctor _ _ installed = None.
Proof. cbv zeta. cbn [fold_left]. apply install_fold. Qed.

End RuntimeMore.

(** ** The further theorems at work on the examples *)

Lemma filename_of_path_witness :
  noQuestion (lit "/src/components") = true
  /\ isSeparator SLASH = true
  /\ segmentText (lit "App.vue") = true
  /\ nonEmpty (lit "App.vue") = true
  /\ matchFilename true []
       (lit "/src/components" ++ SLASH :: lit "App.vue"
        ++ QUESTION :: lit "vue&type=custom")
     = Some (lit "App.vue").
Proof.
  split; [reflexivity|]. split; [reflexivity|]. split; [reflexivity|].
  split; [reflexivity|].
  destruct (filename_of_path (lit "/src/components") (lit "App.vue")
              (lit "vue&type=custom") SLASH eq_refl eq_refl eq_refl eq_refl)
    as (_ & _ & _ & H).
  exact H.
Defined.

Lemma filename_default_witness :
  noQuestion (lit "/src") = true
  /\ isSeparator SLASH = true
  /\ matchFilename true [] (lit "/src" ++ [SLASH]) = None.
Proof.
  split; [reflexivity|]. split; [reflexivity|].
  exact (proj1 (filename_default (E := Sample.externals) (lit "/src") SLASH
                  JNull Sample.options Sample.nothing eq_refl eq_refl)).
Defined.

Lemma sanitize_pieces_witness :
  nothingToEscape (Sample.stringify Sample.hello) = true
  /\ cleanMessagesString (Sample.stringify Sample.hello)
     = Sample.stringify Sample.hello.
Proof.
  split; [reflexivity|].
  exact (proj2 (sanitize_pieces (Sample.stringify Sample.hello) []) eq_refl).
Defined.

Lemma sanitize_separator_collision_witness :
  cleanMessagesString ([DQUOTE] ++ [LS] ++ [DQUOTE])
  = cleanMessagesString ([DQUOTE] ++ escLS ++ [DQUOTE]).
Proof.
  exact (proj1 (sanitize_separator_collision [DQUOTE] [DQUOTE])).
Defined.

Lemma lazy_guard_exact_witness :
  nonEmpty (lit "en") = true
  /\ lacksLazyOptions {| locales := Some [lit "en"]; fallbackLocale := Some [] |}
     = true
  /\ generateDynamicRequireString (E := Sample.externals) (lit "App.vue") JNull
       {| locales := Some [lit "en"]; fallbackLocale := Some [] |} Sample.nothing
     = (Throw configurationError, Sample.nothing)
  /\ generateDynamicRequireString (E := Sample.externals) (lit "App.vue") JNull
       {| locales := Some []; fallbackLocale := Some (lit "en") |} Sample.nothing
     = (Return (lit "require('/tmp/tmp-0/__vue-i18n__' + window.__VUE_I18N_CURRENT_LOCALE__ + '__App.vue')"),
        World [lit "/tmp/tmp-0"] []).
Proof.
  assert (Hn : nonEmpty (lit "en") = true) by reflexivity.
  assert (Hl : lacksLazyOptions
                 {| locales := Some [lit "en"]; fallbackLocale := Some [] |}
               = true) by reflexivity.
  split; [exact Hn|]. split; [exact Hl|].
  destruct (lazy_guard_exact (E := Sample.externals) (lit "App.vue") JNull
              {| locales := Some [lit "en"]; fallbackLocale := Some [] |}
              (lit "en") Sample.nothing) as (_ & Hthrow & Hempty).
  split; [exact (Hthrow Hl)|exact (Hempty Hn)].
Defined.

Lemma lazy_null_table_witness :
  nonEmpty (lit "en") = true
  /\ generateDynamicRequireString (E := Sample.externals) (lit "App.vue") JNull
       {| locales := Some [lit "en"; lit "fr"]; fallbackLocale := Some (lit "en") |}
       Sample.nothing
     = (Throw (Error (lit "Cannot read property 'en' of null")),
        World [lit "/tmp/tmp-0"] []).
Proof.
  split; [reflexivity|].
  exact (lazy_null_table (E := Sample.externals) (lit "App.vue") (lit "en")
           (lit "en") [lit "fr"] Sample.nothing eq_refl).
Defined.

Lemma scalar_override_is_fallback_witness :
  Obj.ownProps JNull = []
  /\ localeSpecificMessages (Some Sample.hello) (Some JNull) (lit "de")
     = JObject [(lit "de", Sample.hello)].
Proof.
  split; [reflexivity|].
  exact (scalar_override_is_fallback (Some Sample.hello) JNull (lit "de") eq_refl).
Defined.

Lemma merged_lookup_objects_witness :
  distinctKeys [(lit "hello", JString (lit "hi")); (lit "bye", JString (lit "bye"))]
  = true
  /\ distinctKeys [(lit "hello", JString (lit "salut"))] = true
  /\ exists merged,
       localeSpecificMessages
         (Some (JObject [(lit "hello", JString (lit "hi"));
                         (lit "bye", JString (lit "bye"))]))
         (Some (JObject [(lit "hello", JString (lit "salut"))])) (lit "fr")
       = JObject [(lit "fr", JObject merged)]
       /\ forall key,
            Obj.get key merged
            = match Obj.get key [(lit "hello", JString (lit "salut"))] with
              | Some message => Some message
              | None => Obj.get key [(lit "hello", JString (lit "hi"));
                                     (lit "bye", JString (lit "bye"))]
              end.
Proof.
  split; [reflexivity|]. split; [reflexivity|].
  exact (merged_lookup_objects
           [(lit "hello", JString (lit "hi")); (lit "bye", JString (lit "bye"))]
           [(lit "hello", JString (lit "salut"))] (lit "fr") eq_refl eq_refl).
Defined.

Lemma fragments_read_back_witness :
  nonEmpty (lit "en") = true
  /\ In (lit "fr") [lit "en"; lit "fr"; lit "fr"]
  /\ readFile (lit "/tmp/tmp-0/__vue-i18n__fr__App.vue")
       (written (snd (generateDynamicRequireString (E := Sample.externals)
                        (lit "App.vue") (JObject Sample.table)
                        {| locales := Some [lit "en"; lit "fr"; lit "fr"];
                           fallbackLocale := Some (lit "en") |}
                        (World [] [(lit "/tmp/tmp-0/__vue-i18n__fr__App.vue",
                                    lit "stale")]))))
     = Some (Sample.stringify
               (JObject [(lit "fr",
                          JObject [(lit "hello", JString (lit "salut"));
                                   (lit "bonus", JString (lit "x"))])])).
Proof.
  assert (Hn : nonEmpty (lit "en") = true) by reflexivity.
  assert (Hi : In (lit "fr") [lit "en"; lit "fr"; lit "fr"])
    by (right; left; reflexivity).
  split; [exact Hn|]. split; [exact Hi|].
  exact (proj1 (fragments_read_back (E := Sample.externals) (lit "App.vue")
                  Sample.table [lit "en"; lit "fr"; lit "fr"] (lit "en") (lit "fr")
                  (World [] [(lit "/tmp/tmp-0/__vue-i18n__fr__App.vue", lit "stale")])
                  Hn Hi)).
Defined.

Lemma load_expression_resolves_witness :
  plainText (tmp_name (Externals := Sample.externals) []) = true
  /\ plainText (lit "App.vue") = true
  /\ nonEmpty (lit "en") = true
  /\ evalLiteral (lit "/tmp/tmp-0/__vue-i18n__") = Some (lit "/tmp/tmp-0/__vue-i18n__")
  /\ evalLiteral (lit "__App.vue") = Some (lit "__App.vue").
Proof.
  split; [reflexivity|]. split; [reflexivity|]. split; [reflexivity|].
  destruct (load_expression_resolves (E := Sample.externals) (lit "App.vue")
              Sample.table [lit "en"; lit "fr"; lit "de"] (lit "en")
              Sample.nothing eq_refl eq_refl eq_refl)
    as (_ & Hb & Ha & _).
  split; [exact Hb|exact Ha].
Defined.

Lemma eager_never_touches_world_witness :
  let this := {| version := Some 2%Z; cacheable := true;
                 resourcePath := lit "/src/App.vue";
                 resourceQuery := lit "?vue&type=custom";
                 query := Sample.options |} in
  truthyAttr (querystring_parse (Externals := Sample.externals)
                (resourceQuery this) !! lit "lazy") = false
  /\ snd (loader (E := Sample.externals) this (SourceString (lit "{}")) None
            Sample.nothing)
     = Sample.nothing.
Proof.
  intros this.
  assert (Hl : truthyAttr (querystring_parse (Externals := Sample.externals)
                             (resourceQuery this) !! lit "lazy") = false)
    by reflexivity.
  split; [exact Hl|].
  exact (proj2 (eager_never_touches_world (E := Sample.externals) this
                  (SourceString (lit "{}")) None ∅ Sample.options Sample.nothing)
           Hl).
Defined.

Lemma loader_forwards_parser_error_witness :
  let this := {| version := Some 2%Z; cacheable := true;
                 resourcePath := lit "/src/App.vue";
                 resourceQuery := lit "?vue&type=custom";
                 query := Sample.options |} in
  let attrs := querystring_parse (Externals := Sample.externals) (resourceQuery this) in
  versionSupported (version this) = true
  /\ (exists data,
        convert (E := Sample.externals) (SourceString (lit "{")) (attrs !! lit "lang")
        = Return data
        /\ JSON_parse (Externals := Sample.externals) data
           = Throw (Error (lit "Unexpected token")))
  /\ loader (E := Sample.externals) this (SourceString (lit "{")) None Sample.nothing
     = ([Cacheable; EmitError (lit "Unexpected token");
         Callback (Some (Error (lit "Unexpected token"))) None None],
        Sample.nothing).
Proof.
  intros this attrs.
  assert (Hv : versionSupported (version this) = true) by reflexivity.
  assert (Hp : exists data,
             convert (E := Sample.externals) (SourceString (lit "{"))
               (attrs !! lit "lang") = Return data
             /\ JSON_parse (Externals := Sample.externals) data
                = Throw (Error (lit "Unexpected token"))).
  { exists (lit "{"). split; reflexivity. }
  split; [exact Hv|]. split; [exact Hp|].
  exact (loader_forwards_parser_error (E := Sample.externals) this
           (SourceString (lit "{")) None Sample.nothing
           (Error (lit "Unexpected token")) Hv (or_intror Hp)).
Defined.

Lemma loader_eager_end_to_end_witness :
  let this := {| version := Some 2%Z; cacheable := false;
                 resourcePath := lit "/src/App.vue";
                 resourceQuery := lit "?vue&type=custom";
                 query := Sample.noOptions |} in
  let attrs := querystring_parse (Externals := Sample.externals) (resourceQuery this) in
  versionSupported (version this) = true
  /\ truthyAttr (attrs !! lit "lazy") = false
  /\ noLineBreak (Sample.stringify Sample.hello) = true
  /\ exists body,
       loader (E := Sample.externals) this
         (SourceString (Sample.stringify Sample.hello)) None Sample.nothing
       = ([Callback None (Some (moduleText ([QUOTE] ++ body ++ [QUOTE]))) None],
          Sample.nothing)
       /\ noDelimiter body = true
       /\ evalLiteral body = Some (escapeSeparators (Sample.stringify Sample.hello)).
Proof.
  intros this attrs.
  assert (Hv : versionSupported (version this) = true) by reflexivity.
  assert (Hl : truthyAttr (attrs !! lit "lazy") = false) by reflexivity.
  assert (Hs : noLineBreak (Sample.stringify Sample.hello) = true) by reflexivity.
  split; [exact Hv|]. split; [exact Hl|]. split; [exact Hs|].
  assert (Hc : convert (E := Sample.externals)
                 (SourceString (Sample.stringify Sample.hello)) (attrs !! lit "lang")
               = Return (Sample.stringify Sample.hello)) by reflexivity.
  assert (Hp : JSON_parse (Externals := Sample.externals)
                 (Sample.stringify Sample.hello) = Return Sample.hello)
    by reflexivity.
  exact (loader_eager_end_to_end (E := Sample.externals) this
           (SourceString (Sample.stringify Sample.hello)) None Sample.nothing
           (Sample.stringify Sample.hello) Sample.hello Hv Hl Hc Hp Hs).
Defined.

Lemma generateCode_lazy_end_to_end_witness :
  let attrs : ParsedUrlQuery :=
    {[ lit "lazy" := QString (lit "true"); lit "locale" := QString (lit "en") ]} in
  nonEmpty (lit "en") = true
  /\ truthyAttr (attrs !! lit "lazy") = true
  /\ withLocale attrs (JObject []) = JObject [(lit "en", JObject [])]
  /\ generateCode (E := Sample.externals) (SourceString (lit "{}"))
       (lit "/src/App.vue?vue") attrs
       {| locales := Some [lit "en"]; fallbackLocale := Some (lit "en") |}
       Sample.nothing
     = (Return (moduleText (lit "JSON.stringify(require('/tmp/tmp-0/__vue-i18n__' + window.__VUE_I18N_CURRENT_LOCALE__ + '__App.vue'))")),
        World [lit "/tmp/tmp-0"]
          [(lit "/tmp/tmp-0/__vue-i18n__en__App.vue",
            Sample.stringify (JObject [(lit "en", JObject [])]))]).
Proof.
  intros attrs.
  assert (Hn : nonEmpty (lit "en") = true) by reflexivity.
  assert (Hl : truthyAttr (attrs !! lit "lazy") = true) by reflexivity.
  assert (Ht : withLocale attrs (JObject []) = JObject [(lit "en", JObject [])])
    by reflexivity.
  split; [exact Hn|]. split; [exact Hl|]. split; [exact Ht|].
  assert (Hc : convert (E := Sample.externals) (SourceString (lit "{}"))
                 (attrs !! lit "lang") = Return (lit "{}")) by reflexivity.
  assert (Hp : JSON_parse (Externals := Sample.externals) (lit "{}")
               = Return (JObject [])) by reflexivity.
  exact (generateCode_lazy_end_to_end (E := Sample.externals)
           (SourceString (lit "{}")) (lit "/src/App.vue?vue") attrs [lit "en"]
           (lit "en") Sample.nothing (lit "{}") (JObject [])
           [(lit "en", JObject [])] Hn Hl Hc Hp Ht).
Defined.
